(** * LLHTTPClient responders (indra/llmessage/llhttpclient.h)

    A shallow embedding of the responder classes declared in
    [llhttpclient.h]: the header collector they fill, the one-shot
    completion flag, the decoding cascade selected by virtual dispatch and
    the intrusive reference count behind [ResponderPtr].

    Member functions become functions on a record of the object's fields.
    A member that calls a virtual hook returns in the monad [M], which
    collects the hooks invoked, in order, and records whether the call
    returned or aborted the process. *)

From Stdlib Require Import ZArith NArith List String Ascii Bool Lia.
Import ListNotations.

Local Open Scope string_scope.
Local Open Scope list_scope.

(** ** Scalar types of the header *)

(** [U32]: the HTTP status travels as an unsigned 32-bit value; the header
    only compares and copies it. *)
Definition U32 : Type := N.

(** [CURLcode] is the enumeration of <curl/curl.h>, kept as its integer. *)
Definition CURLcode : Type := Z.
Definition CURLE_OK : CURLcode := 0%Z.

(** [llhttpstatuscodes.h] is not part of the sources: the one constant the
    header uses from it is a parameter. *)
Class HttpStatusCodes : Type := { HTTP_INTERNAL_ERROR : U32 }.

(** [AITransferInfo]: three F64 statistics that no code of this header
    reads; the constructor zeroes them.  Kept as a token. *)
Inductive AITransferInfo : Type := transfer_info.

(** ** Case-insensitive header names *)

Definition tolower (c : ascii) : ascii :=
  let n := nat_of_ascii c in
  if (65 <=? n)%nat && (n <=? 90)%nat then ascii_of_nat (n + 32) else c.

Fixpoint lowercase (s : string) : string :=
  match s with
  | EmptyString => EmptyString
  | String c rest => String (tolower c) (lowercase rest)
  end.

(** Two header names denote the same header when they agree up to case. *)
Definition same_header (a b : string) : bool :=
  String.eqb (lowercase a) (lowercase b).

(** ** Structured documents *)

#[local] Set Warnings "-register-all".

(** Modelled from the spec: [LLSD] is only forward-declared in
    llhttpclient.h.  The glossary calls it "a self-describing,
    dynamically-typed value format (maps/arrays/scalars)"; the scalars kept
    here are the ones the responders can produce or the examples use. *)
Inductive LLSD : Type :=
| LLSD_Undefined
| LLSD_Boolean (b : bool)
| LLSD_Integer (i : Z)
| LLSD_String (s : string)
| LLSD_Array (items : list LLSD)
| LLSD_Map (entries : list (string * LLSD)).

(** Modelled from the spec: "the response body (as an opaque byte buffer
    with an associated content-type/channel descriptor)".
    [LLChannelDescriptors] is only forward-declared in llhttpclient.h; the
    descriptor is an opaque number. *)
Definition LLChannelDescriptors : Type := Z.

(** Modelled from the spec: "the response body (as an opaque byte
    buffer ...)".  [LLBufferArray] is only forward-declared in
    llhttpclient.h; the buffer is the byte string of the body. *)
Definition LLBufferArray : Type := string.

Definition buffer_ptr_t : Type := LLBufferArray.

(** The structured-document codec is an external collaborator ("body
    encoding/decoding of the structured document format is an external
    codec"): [fromXML] returns the parsed document, or [None] for a parse
    failure. *)
Class LLSDSerialize : Type := { fromXML : string -> option LLSD }.

(** ** The header collector *)

Module AIHTTPReceivedHeaders.

(** Modelled from the spec: aihttpheaders.h is not part of the sources.
    Spec 2 and 4.1: "an ordered multi-valued mapping from header name to
    value", "multiple values per name permitted, insertion order preserved
    per name".  Entries are kept in arrival order, each with the name as it
    arrived. *)
Definition t : Type := list (string * string).

(** What [getValues] leaves in its [range_type] out-parameter: the
    matching entries ([first] the stored name, [second] the value). *)
Definition range_type : Type := list (string * string).

(** Modelled from the spec: a collector that has received nothing. *)
Definition empty : t := [].

(** Modelled from the spec: "addHeader(name, value) appends a value under
    name"; "No entry is ever silently overwritten". *)
Definition addHeader (key value : string) (h : t) : t := h ++ [(key, value)].

(** Modelled from the spec: "getValues(name) -> ordered sequence of values
    or not found", the name "case-insensitively matched".  The boolean is
    the C++ return value, the list what the range spans. *)
Definition getValues (key : string) (h : t) : bool * range_type :=
  let found := filter (fun kv => same_header key (fst kv)) h in
  (negb (Nat.eqb (List.length found) 0), found).

(** Modelled from the spec: "swap(other) exchanges entire contents in
    place".  For [a.swap(b)] the pair is (new [a], new [b]). *)
Definition swap (a b : t) : t * t := (b, a).

End AIHTTPReceivedHeaders.

(** ** Virtual hooks and their trace *)

(** One constructor per overridable hook, with the arguments of the call. *)
Inductive VirtualCall : Type :=
| call_completedHeaders (status : U32) (reason : string)
    (headers : AIHTTPReceivedHeaders.t)
| call_completedRaw (status : U32) (reason : string)
    (channels : LLChannelDescriptors) (buffer : buffer_ptr_t)
| call_completed (status : U32) (reason : string) (content : LLSD)
| call_result (content : LLSD)
| call_errorWithContent (status : U32) (reason : string) (content : LLSD)
| call_error (status : U32) (reason : string).

(** What a member function lets the outside observe: the virtual calls it
    makes and the lines it writes to the [llinfos] log. *)
Inductive Event : Type :=
| Invoke (c : VirtualCall)
| llinfos (url : string) (status : U32) (reason : string).

(** A computation yields the events so far and either the value it returns
    or [None] when the process was aborted. *)
Definition M (A : Type) : Type := list Event * option A.

Definition ret {A : Type} (a : A) : M A := ([], Some a).

Definition bind {A B : Type} (m : M A) (k : A -> M B) : M B :=
  match m with
  | (t, Some a) => let (t', b) := k a in (t ++ t', b)
  | (t, None) => (t, None)
  end.

Definition emit (e : Event) : M unit := ([e], Some tt).

Definition abort {A : Type} : M A := ([], None).

Notation "x <- m ;; k" := (bind m (fun x => k))
  (at level 61, m at next level, right associativity).
Notation "m ;; k" := (bind m (fun _ => k))
  (at level 61, right associativity).

Definition trace {A : Type} (m : M A) : list Event := fst m.
Definition outcome {A : Type} (m : M A) : option A := snd m.

(** Which virtual functions the most derived class of an object overrides.
    [result] is pure virtual in ResponderWithResult, so it is always
    overridden; ResponderIgnoreBody overrides it with an empty body. *)
Record Overrides : Type := {
  overrides_completedHeaders : bool;
  overrides_completedRaw : bool;
  overrides_completed : bool;
  overrides_errorWithContent : bool;
  overrides_error : bool
}.

(** A virtual call: the invocation is observed; the body that runs is the
    derived class's (the caller's code, outside this header) when it
    overrides the hook, the default otherwise.  An overriding body is seen
    through its invocation only: it works on the members its own class
    adds.  The three event handlers are taken as ResponderBase defines
    them. *)
Definition virtual (overridden : bool) (c : VirtualCall) (default : M unit)
  : M unit :=
  emit (Invoke c) ;; if overridden then ret tt else default.

(** A derived class that overrides no hook. *)
Definition no_overrides : Overrides :=
  {| overrides_completedHeaders := false;
     overrides_completedRaw := false;
     overrides_completed := false;
     overrides_errorWithContent := false;
     overrides_error := false |}.

(** ResponderIgnore: derived from ResponderIgnoreBody, which supplies the
    empty [result]; it overrides no other hook. *)
Definition ResponderIgnore : Overrides := no_overrides.

(** ** class ResponderBase *)

Module ResponderBase.

Record t : Type := {
  mURL : string;
  mReceivedHeaders : AIHTTPReceivedHeaders.t;
  mCode : CURLcode;
  mFinished : bool;
  mReferenceCount : Z
}.

Definition set_mURL (url : string) (r : t) : t :=
  {| mURL := url; mReceivedHeaders := mReceivedHeaders r; mCode := mCode r;
     mFinished := mFinished r; mReferenceCount := mReferenceCount r |}.

Definition set_mReceivedHeaders (h : AIHTTPReceivedHeaders.t) (r : t) : t :=
  {| mURL := mURL r; mReceivedHeaders := h; mCode := mCode r;
     mFinished := mFinished r; mReferenceCount := mReferenceCount r |}.

Definition set_mCode (code : CURLcode) (r : t) : t :=
  {| mURL := mURL r; mReceivedHeaders := mReceivedHeaders r; mCode := code;
     mFinished := mFinished r; mReferenceCount := mReferenceCount r |}.

Definition set_mFinished (b : bool) (r : t) : t :=
  {| mURL := mURL r; mReceivedHeaders := mReceivedHeaders r; mCode := mCode r;
     mFinished := b; mReferenceCount := mReferenceCount r |}.

Definition set_mReferenceCount (n : Z) (r : t) : t :=
  {| mURL := mURL r; mReceivedHeaders := mReceivedHeaders r; mCode := mCode r;
     mFinished := mFinished r; mReferenceCount := n |}.

(** Modelled from the spec: the constructor [ResponderBase(void)] is defined
    in llhttpclient.cpp, which is not part of the sources.  Spec 3:
    "finished: boolean, false until completion"; "referenceCount: integer
    >= 0", raised by each handle; the collector starts empty.  Neither the
    header nor the spec gives the first value of [mCode]: it is the
    argument [code0]. *)
Definition ctor (code0 : CURLcode) : t :=
  {| mURL := "";
     mReceivedHeaders := AIHTTPReceivedHeaders.empty;
     mCode := code0;
     mFinished := false;
     mReferenceCount := 0 |}.

(** Modelled from the spec: [setURL] is defined in llhttpclient.cpp.
    Spec 3: "url: string, set for diagnostics, mutable before dispatch". *)
Definition setURL (url : string) (r : t) : t := set_mURL url r.

Definition getURL (r : t) : string := mURL r.
Definition result_code (r : t) : CURLcode := mCode r.
Definition is_finished (r : t) : bool := mFinished r.

(** Modelled from the spec: the test itself sits in llhttpclient.cpp.
    Spec 8 and 4.4: "status 200-299", the "success-range status". *)
Definition status_indicates_success (status : U32) : bool :=
  ((200 <=? status) && (status <? 300))%N.

(** Modelled from the spec: the reading of a body as a structured
    document; the code that does it sits in llhttpclient.cpp.  Spec 4.4:
    the body is interpreted "as a structured document (a self-describing
    LLSD-style value)"; spec 7: a body that does not parse is "treated as an
    empty/absent structured value rather than raised as a distinct fault":
    [content] keeps the default-constructed, undefined LLSD. *)
Definition interpret_as_LLSD `{LLSDSerialize}
    (channels : LLChannelDescriptors) (buffer : buffer_ptr_t) : LLSD :=
  match fromXML buffer with
  | Some content => content
  | None => LLSD_Undefined
  end.

(** Modelled from the spec: [decode_llsd_body] is defined in
    llhttpclient.cpp.  Its declaration (llhttpclient.h:111) documents it:
    "Read body from buffer and put it into content.  If status indicates
    success, interpret it as LLSD, otherwise copy it as-is."  Which members
    call it is not visible in the header. *)
Definition decode_llsd_body `{LLSDSerialize} (status : U32) (reason : string)
    (channels : LLChannelDescriptors) (buffer : buffer_ptr_t) : LLSD :=
  if status_indicates_success status
  then interpret_as_LLSD channels buffer
  else LLSD_String buffer.

(** Modelled from the spec: [decode_raw_body] is defined in
    llhttpclient.cpp.  Its declaration (llhttpclient.h:114) documents it:
    "Read body from buffer and put it into content.  Always copy it
    as-is." *)
Definition decode_raw_body (status : U32) (reason : string)
    (channels : LLChannelDescriptors) (buffer : buffer_ptr_t) : string :=
  buffer.

(** "Derived classes that implement completed_headers()/completedHeaders()
    should return true here." *)
Definition needsHeaders : bool := false.

(** "The default is not to follow redirections." *)
Definition followRedir : bool := false.

(** [completedHeaders]: "The default does nothing." *)
Definition completedHeaders (d : Overrides) (status : U32) (reason : string)
    (headers : AIHTTPReceivedHeaders.t) : M unit :=
  virtual (overrides_completedHeaders d)
    (call_completedHeaders status reason headers) (ret tt).

(** Rebuild the collector from the range [getValues] returned: the loop
    [for (cookie = cookies.first; cookie != cookies.second; ++cookie)]. *)
Fixpoint add_range (cookies : AIHTTPReceivedHeaders.range_type)
    (set_cookie_headers : AIHTTPReceivedHeaders.t) : AIHTTPReceivedHeaders.t :=
  match cookies with
  | [] => set_cookie_headers
  | cookie :: rest =>
      add_range rest
        (AIHTTPReceivedHeaders.addHeader (fst cookie) (snd cookie)
           set_cookie_headers)
  end.

Definition received_HTTP_header (r : t) : t :=
  let set_cookie_headers := AIHTTPReceivedHeaders.empty in
  let (found, cookies) :=
    AIHTTPReceivedHeaders.getValues "set-cookie" (mReceivedHeaders r) in
  let set_cookie_headers :=
    if found then add_range cookies set_cookie_headers
    else set_cookie_headers in
  set_mReceivedHeaders
    (fst (AIHTTPReceivedHeaders.swap (mReceivedHeaders r) set_cookie_headers))
    r.

Definition received_header (key value : string) (r : t) : t :=
  set_mReceivedHeaders
    (AIHTTPReceivedHeaders.addHeader key value (mReceivedHeaders r)) r.

Definition completed_headers (d : Overrides) (status : U32) (reason : string)
    (info : AITransferInfo) (r : t) : M t :=
  completedHeaders d status reason (mReceivedHeaders r) ;; ret r.

End ResponderBase.

(** ** class ResponderHeadersOnly *)

Module ResponderHeadersOnly.
Import ResponderBase.

Definition needsHeaders : bool := true.
Definition followRedir : bool := true.

Definition finished (d : Overrides) (code : CURLcode) (http_status : U32)
    (reason : string) (channels : LLChannelDescriptors)
    (buffer : buffer_ptr_t) (r : t) : M t :=
  let r := set_mCode code r in
  completedHeaders d http_status reason (mReceivedHeaders r) ;;
  ret (set_mFinished true r).

End ResponderHeadersOnly.

(** ** class ResponderWithCompleted *)

Module ResponderWithCompleted.
Import ResponderBase.

Section Hooks.
Context `{LLSDSerialize}.

(** Modelled from the spec: the default body of [completed] is defined in
    llhttpclient.cpp.  The spec does not describe it; its declaration
    (llhttpclient.h:280-283) does: "The default aborts, as it should never
    be called (can't make it pure virtual though, so classes that override
    completedRaw don't need to implement this function, too)." *)
Definition completed (d : Overrides) (status : U32) (reason : string)
    (content : LLSD) : M unit :=
  virtual (overrides_completed d) (call_completed status reason content) abort.

(** Modelled from the spec: the default body of [completedRaw] is defined
    in llhttpclient.cpp.  Its declaration (llhttpclient.h:276-278): "The
    default is to interpret the content as LLSD and call completed()";
    spec 4.4: it "interprets the raw body as a structured document ...
    regardless of status, and forwards (status, reason, structuredValue) to
    a caller hook".  Neither text makes the reading depend on the status,
    so the body is interpreted at every status. *)
Definition completedRaw (d : Overrides) (status : U32) (reason : string)
    (channels : LLChannelDescriptors) (buffer : buffer_ptr_t) : M unit :=
  virtual (overrides_completedRaw d)
    (call_completedRaw status reason channels buffer)
    (let content := interpret_as_LLSD channels buffer in
     completed d status reason content).

Definition finished (d : Overrides) (code : CURLcode) (http_status : U32)
    (reason : string) (channels : LLChannelDescriptors)
    (buffer : buffer_ptr_t) (r : t) : M t :=
  let r := set_mCode code r in
  completedRaw d http_status reason channels buffer ;;
  ret (set_mFinished true r).

End Hooks.

End ResponderWithCompleted.

(** ** class ResponderWithResult *)

Module ResponderWithResult.
Import ResponderBase.

(** [result] is pure virtual: the body is always the derived class's. *)
Definition result (content : LLSD) : M unit :=
  virtual true (call_result content) (ret tt).

(** Modelled from the spec: the default body of [error] is defined in
    llhttpclient.cpp.  Its declaration (llhttpclient.h:318-320): "The
    default prints the error to llinfos."; spec 7: "log the condition and
    treat it as non-fatal". *)
Definition error (d : Overrides) (r : t) (status : U32) (reason : string)
  : M unit :=
  virtual (overrides_error d) (call_error status reason)
    (emit (llinfos (mURL r) status reason)).

(** Modelled from the spec: the default body of [errorWithContent] is
    defined in llhttpclient.cpp.  Its declaration (llhttpclient.h:314-316):
    "The default calls error()." *)
Definition errorWithContent (d : Overrides) (r : t) (status : U32)
    (reason : string) (content : LLSD) : M unit :=
  virtual (overrides_errorWithContent d)
    (call_errorWithContent status reason content)
    (error d r status reason).

Section Finished.
Context `{LLSDSerialize}.

(** Modelled from the spec: [ResponderWithResult::finished] is defined in
    llhttpclient.cpp.  Spec 4.4: "Success-range status -> decode body as a
    structured document and invoke a single required result hook with that
    value.  Non-success status -> invoke an error-with-content hook
    carrying status, reason, and the decoded structured body"; spec 4.2:
    "finished becomes true; transportCode is recorded".  The body is
    decoded on both branches, as the spec words it.  The frame ([mCode]
    first, [mFinished] last) is the one of the inline
    [pubErrorWithContent] and [pubResult]. *)
Definition finished (d : Overrides) (code : CURLcode) (http_status : U32)
    (reason : string) (channels : LLChannelDescriptors)
    (buffer : buffer_ptr_t) (r : t) : M t :=
  let r := set_mCode code r in
  let content := interpret_as_LLSD channels buffer in
  (if status_indicates_success http_status
   then result content
   else errorWithContent d r http_status reason content) ;;
  ret (set_mFinished true r).

End Finished.

Definition pubErrorWithContent (d : Overrides) (code : CURLcode)
    (status : U32) (reason : string) (content : LLSD) (r : t) : M t :=
  let r := set_mCode code r in
  errorWithContent d r status reason content ;;
  ret (set_mFinished true r).

Definition pubResult (content : LLSD) (r : t) : M t :=
  let r := set_mCode CURLE_OK r in
  result content ;;
  ret (set_mFinished true r).

End ResponderWithResult.

(** ** class LegacyPolledResponder *)

Module LegacyPolledResponder.

(** The ResponderWithCompleted sub-object and the two cached fields. *)
Record t : Type := {
  base : ResponderBase.t;
  mStatus : U32;
  mReason : string
}.

Definition set_base (b : ResponderBase.t) (p : t) : t :=
  {| base := b; mStatus := mStatus p; mReason := mReason p |}.

Section Members.
Context `{HttpStatusCodes} `{LLSDSerialize}.

(** [LegacyPolledResponder(void) : mStatus(HTTP_INTERNAL_ERROR) { }]:
    [mReason] is a default-constructed, empty std::string; [code0] goes to
    the base constructor. *)
Definition ctor (code0 : CURLcode) : t :=
  {| base := ResponderBase.ctor code0;
     mStatus := HTTP_INTERNAL_ERROR;
     mReason := "" |}.

Definition finished (d : Overrides) (code : CURLcode) (http_status : U32)
    (reason : string) (channels : LLChannelDescriptors)
    (buffer : buffer_ptr_t) (p : t) : M t :=
  let p := {| base := base p; mStatus := http_status; mReason := mReason p |} in
  let p := {| base := base p; mStatus := mStatus p; mReason := reason |} in
  b <- ResponderWithCompleted.finished d code http_status reason channels
         buffer (base p) ;;
  ret (set_base b p).

End Members.

Definition http_status (p : t) : U32 := mStatus p.
Definition reason (p : t) : string := mReason p.

End LegacyPolledResponder.

(** ** struct AIBufferedCurlEasyRequestEvents *)

(** The three events BufferedCurlEasyRequest generates, one constructor per
    pure virtual member of the struct. *)
Inductive AIBufferedCurlEasyRequestEvents : Type :=
| on_received_HTTP_header
| on_received_header (key value : string)
| on_completed_headers (status : U32) (reason : string)
    (info : AITransferInfo).

(** An event lands in the handler ResponderBase defines for it. *)
Definition deliver (d : Overrides) (r : ResponderBase.t)
    (e : AIBufferedCurlEasyRequestEvents) : M ResponderBase.t :=
  match e with
  | on_received_HTTP_header => ret (ResponderBase.received_HTTP_header r)
  | on_received_header key value =>
      ret (ResponderBase.received_header key value r)
  | on_completed_headers status reason info =>
      ResponderBase.completed_headers d status reason info r
  end.

(** The events of a transfer, in the order they arrive. *)
Fixpoint deliver_all (d : Overrides) (r : ResponderBase.t)
    (es : list AIBufferedCurlEasyRequestEvents) : M ResponderBase.t :=
  match es with
  | [] => ret r
  | e :: rest => r' <- deliver d r e ;; deliver_all d r' rest
  end.

(** ** Objects of any responder class *)

(** The dynamic base class of an object; the hooks its most derived class
    overrides are an [Overrides] carried next to it. *)
Inductive Responder : Type :=
| HeadersOnly (b : ResponderBase.t)
| WithCompleted (b : ResponderBase.t)
| WithResult (b : ResponderBase.t)
| LegacyPolled (p : LegacyPolledResponder.t).

Inductive ResponderClass : Type :=
| class_HeadersOnly
| class_WithCompleted
| class_WithResult
| class_LegacyPolled.

(** The ResponderBase sub-object. *)
Definition as_base (o : Responder) : ResponderBase.t :=
  match o with
  | HeadersOnly b | WithCompleted b | WithResult b => b
  | LegacyPolled p => LegacyPolledResponder.base p
  end.

Definition with_base (b : ResponderBase.t) (o : Responder) : Responder :=
  match o with
  | HeadersOnly _ => HeadersOnly b
  | WithCompleted _ => WithCompleted b
  | WithResult _ => WithResult b
  | LegacyPolled p => LegacyPolled (LegacyPolledResponder.set_base b p)
  end.

Definition is_finished (o : Responder) : bool :=
  ResponderBase.is_finished (as_base o).

(** The calls that reach a responder: [setURL], the three events of
    AIBufferedCurlEasyRequestEvents, the terminal call, and the two public
    entry points ResponderWithResult adds. *)
Inductive Op : Type :=
| op_setURL (url : string)
| op_received_HTTP_header
| op_received_header (key value : string)
| op_completed_headers (status : U32) (reason : string) (info : AITransferInfo)
| op_finished (code : CURLcode) (http_status : U32) (reason : string)
    (channels : LLChannelDescriptors) (buffer : buffer_ptr_t)
| op_pubErrorWithContent (code : CURLcode) (status : U32) (reason : string)
    (content : LLSD)
| op_pubResult (content : LLSD).

Definition class_of (o : Responder) : ResponderClass :=
  match o with
  | HeadersOnly _ => class_HeadersOnly
  | WithCompleted _ => class_WithCompleted
  | WithResult _ => class_WithResult
  | LegacyPolled _ => class_LegacyPolled
  end.

(** [pubErrorWithContent] and [pubResult] are members of
    ResponderWithResult only. *)
Definition has_member (k : ResponderClass) (op : Op) : bool :=
  match op, k with
  | (op_pubErrorWithContent _ _ _ _ | op_pubResult _), class_WithResult => true
  | (op_pubErrorWithContent _ _ _ _ | op_pubResult _), _ => false
  | _, _ => true
  end.

(** Virtual dispatch of the capability queries on the framework classes:
    only ResponderHeadersOnly overrides them. *)
Definition needsHeaders (k : ResponderClass) : bool :=
  match k with
  | class_HeadersOnly => ResponderHeadersOnly.needsHeaders
  | _ => ResponderBase.needsHeaders
  end.

Definition followRedir (k : ResponderClass) : bool :=
  match k with
  | class_HeadersOnly => ResponderHeadersOnly.followRedir
  | _ => ResponderBase.followRedir
  end.

(** [redirect_status_ok] is defined once, in ResponderBase, as the virtual
    call [followRedir()]. *)
Definition redirect_status_ok (k : ResponderClass) : bool := followRedir k.

(** The calls that end a transaction. *)
Definition is_terminal_call (op : Op) : bool :=
  match op with
  | op_finished _ _ _ _ _ => true
  | _ => false
  end.

Definition completing (op : Op) : bool :=
  match op with
  | op_finished _ _ _ _ _
  | op_pubErrorWithContent _ _ _ _
  | op_pubResult _ => true
  | _ => false
  end.

Section Dispatch.
Context `{HttpStatusCodes} `{LLSDSerialize}.

Definition new (k : ResponderClass) (code0 : CURLcode) : Responder :=
  match k with
  | class_HeadersOnly => HeadersOnly (ResponderBase.ctor code0)
  | class_WithCompleted => WithCompleted (ResponderBase.ctor code0)
  | class_WithResult => WithResult (ResponderBase.ctor code0)
  | class_LegacyPolled => LegacyPolled (LegacyPolledResponder.ctor code0)
  end.

(** Virtual dispatch of [finished] on the dynamic class. *)
Definition finished (d : Overrides) (code : CURLcode) (http_status : U32)
    (reason : string) (channels : LLChannelDescriptors)
    (buffer : buffer_ptr_t) (o : Responder) : M Responder :=
  match o with
  | HeadersOnly b =>
      b' <- ResponderHeadersOnly.finished d code http_status reason channels
              buffer b ;;
      ret (HeadersOnly b')
  | WithCompleted b =>
      b' <- ResponderWithCompleted.finished d code http_status reason
              channels buffer b ;;
      ret (WithCompleted b')
  | WithResult b =>
      b' <- ResponderWithResult.finished d code http_status reason channels
              buffer b ;;
      ret (WithResult b')
  | LegacyPolled p =>
      p' <- LegacyPolledResponder.finished d code http_status reason
              channels buffer p ;;
      ret (LegacyPolled p')
  end.

(** One call on an object.  A call the object's class does not declare
    (see [has_member]) does not compile; it is given no effect. *)
Definition call (d : Overrides) (o : Responder) (op : Op) : M Responder :=
  match op with
  | op_setURL url => ret (with_base (ResponderBase.setURL url (as_base o)) o)
  | op_received_HTTP_header =>
      ret (with_base (ResponderBase.received_HTTP_header (as_base o)) o)
  | op_received_header key value =>
      ret (with_base (ResponderBase.received_header key value (as_base o)) o)
  | op_completed_headers status reason info =>
      b <- ResponderBase.completed_headers d status reason info (as_base o) ;;
      ret (with_base b o)
  | op_finished code http_status reason channels buffer =>
      finished d code http_status reason channels buffer o
  | op_pubErrorWithContent code status reason content =>
      match o with
      | WithResult b =>
          b' <- ResponderWithResult.pubErrorWithContent d code status reason
                  content b ;;
          ret (WithResult b')
      | _ => ret o
      end
  | op_pubResult content =>
      match o with
      | WithResult b =>
          b' <- ResponderWithResult.pubResult content b ;;
          ret (WithResult b')
      | _ => ret o
      end
  end.

(** A sequence of calls, each on the object the previous one left. *)
Fixpoint run (d : Overrides) (o : Responder) (ops : list Op) : M Responder :=
  match ops with
  | [] => ret o
  | op :: rest => o' <- call d o op ;; run d o' rest
  end.

End Dispatch.

(** ** ResponderPtr: the intrusive reference count *)

(** [LLAtomicU32]: increments and decrements wrap at 2^32. *)
Definition U32_wrap (z : Z) : Z := (z mod 2 ^ 32)%Z.

(** A heap cell holding a responder, with the number of times [delete] ran
    on it. *)
Record Allocation : Type := {
  object : ResponderBase.t;
  deleted : nat
}.

Definition allocate (r : ResponderBase.t) : Allocation :=
  {| object := r; deleted := 0 |}.

(** Modelled from the spec: [intrusive_ptr_add_ref] is defined in
    llhttpclient.cpp.  llhttpclient.h:216: "Called by boost::intrusive_ptr
    when a new copy of a boost::intrusive_ptr<ResponderBase> is made";
    spec 3: "copying increments". *)
Definition intrusive_ptr_add_ref (p : Allocation) : Allocation :=
  {| object :=
       ResponderBase.set_mReferenceCount
         (U32_wrap (ResponderBase.mReferenceCount (object p) + 1)) (object p);
     deleted := deleted p |}.

(** Modelled from the spec: [intrusive_ptr_release] is defined in
    llhttpclient.cpp.  llhttpclient.h:217-218: "Called by
    boost::intrusive_ptr when a boost::intrusive_ptr<ResponderBase> is
    destroyed.  This function must delete the ResponderBase object when
    the reference count reaches zero."; spec 3: "destruction decrements,
    reaching zero destroys the Responder". *)
Definition intrusive_ptr_release (p : Allocation) : Allocation :=
  let count := U32_wrap (ResponderBase.mReferenceCount (object p) - 1) in
  let r := ResponderBase.set_mReferenceCount count (object p) in
  if (count =? 0)%Z
  then {| object := r; deleted := S (deleted p) |}
  else {| object := r; deleted := deleted p |}.

(** Who holds a ResponderPtr: the engine while the request is in flight,
    or the caller. *)
Inductive Holder : Type := Engine | Caller.

Record Handles : Type := { engine_held : nat; caller_held : nat }.

Definition held (h : Handles) (who : Holder) : nat :=
  match who with Engine => engine_held h | Caller => caller_held h end.

Definition total_held (h : Handles) : nat := engine_held h + caller_held h.

Definition gain (who : Holder) (h : Handles) : Handles :=
  match who with
  | Engine =>
      {| engine_held := S (engine_held h); caller_held := caller_held h |}
  | Caller =>
      {| engine_held := engine_held h; caller_held := S (caller_held h) |}
  end.

Definition lose (who : Holder) (h : Handles) : Handles :=
  match who with
  | Engine =>
      {| engine_held := pred (engine_held h); caller_held := caller_held h |}
  | Caller =>
      {| engine_held := engine_held h; caller_held := pred (caller_held h) |}
  end.

(** A handle comes into being (built from the raw pointer or copied from
    another handle) or is destroyed. *)
Inductive HandleOp : Type :=
| make_handle (who : Holder)
| destroy_handle (who : Holder).

(** boost::intrusive_ptr calls [intrusive_ptr_add_ref] in its constructors
    and [intrusive_ptr_release] in its destructor.  [None]: the program
    cannot perform the step (no handle of that holder to destroy, or no
    object left to point at). *)
Definition handle_step (s : Allocation * Handles) (op : HandleOp)
  : option (Allocation * Handles) :=
  let (p, h) := s in
  match op with
  | make_handle who =>
      if Nat.eqb (deleted p) 0
      then Some (intrusive_ptr_add_ref p, gain who h)
      else None
  | destroy_handle who =>
      if Nat.ltb 0 (held h who)
      then Some (intrusive_ptr_release p, lose who h)
      else None
  end.

Fixpoint handle_run (s : Allocation * Handles) (ops : list HandleOp)
  : option (Allocation * Handles) :=
  match ops with
  | [] => Some s
  | op :: rest =>
      match handle_step s op with
      | Some s' => handle_run s' rest
      | None => None
      end
  end.

Definition is_make (op : HandleOp) : bool :=
  match op with make_handle _ => true | destroy_handle _ => false end.

(** How many handles a sequence makes, and how many it destroys. *)
Definition made (ops : list HandleOp) : nat :=
  List.length (filter is_make ops).

Definition destroyed (ops : list HandleOp) : nat :=
  List.length (filter (fun op => negb (is_make op)) ops).

(** A responder fresh from [new], before any handle exists. *)
Definition fresh_allocation (code0 : CURLcode) : Allocation * Handles :=
  (allocate (ResponderBase.ctor code0),
   {| engine_held := 0; caller_held := 0 |}).

(** ** A codec and a status table to evaluate the model on *)

(** A stand-in for the external codec: it recognises three documents and
    reports a parse failure for every other body. *)
Definition sample_fromXML (body : string) : option LLSD :=
  if String.eqb body "<llsd><undef /></llsd>" then Some LLSD_Undefined
  else if String.eqb body "<llsd><boolean>1</boolean></llsd>"
  then Some (LLSD_Boolean true)
  else if String.eqb body "<llsd><integer>7</integer></llsd>"
  then Some (LLSD_Integer 7)
  else None.

Definition sample_codec : LLSDSerialize := {| fromXML := sample_fromXML |}.

Definition sample_status_codes : HttpStatusCodes :=
  {| HTTP_INTERNAL_ERROR := 499%N |}.

(** ** Vocabulary of the statements *)

(** The values the calls [received_header(key, value)] of a sequence put
    under [name], oldest first. *)
Fixpoint values_added (name : string) (calls : list (string * string))
  : list string :=
  match calls with
  | [] => []
  | (key, value) :: rest =>
      if same_header name key
      then value :: values_added name rest
      else values_added name rest
  end.

(** The responder after a sequence of [received_header] events. *)
Definition headers_after (calls : list (string * string)) (r : ResponderBase.t)
  : ResponderBase.t :=
  fold_left (fun r kv => ResponderBase.received_header (fst kv) (snd kv) r)
    calls r.

(** The values of a range, in order. *)
Definition values (found : bool * AIHTTPReceivedHeaders.range_type)
  : list string :=
  map snd (snd found).

(** The hook an event belongs to, without its arguments. *)
Inductive HookName : Type :=
| hook_completedHeaders | hook_completedRaw | hook_completed
| hook_result | hook_errorWithContent | hook_error | hook_llinfos.

Definition hook_of (e : Event) : HookName :=
  match e with
  | Invoke (call_completedHeaders _ _ _) => hook_completedHeaders
  | Invoke (call_completedRaw _ _ _ _) => hook_completedRaw
  | Invoke (call_completed _ _ _) => hook_completed
  | Invoke (call_result _) => hook_result
  | Invoke (call_errorWithContent _ _ _) => hook_errorWithContent
  | Invoke (call_error _ _) => hook_error
  | llinfos _ _ _ => hook_llinfos
  end.


(** A derived class that overrides [completed] and nothing else. *)
Definition overrides_only_completed : Overrides :=
  {| overrides_completedHeaders := false;
     overrides_completedRaw := false;
     overrides_completed := true;
     overrides_errorWithContent := false;
     overrides_error := false |}.

(** A derived class that overrides only [completedRaw]. *)
Definition overrides_only_completedRaw : Overrides :=
  {| overrides_completedHeaders := false;
     overrides_completedRaw := true;
     overrides_completed := false;
     overrides_errorWithContent := false;
     overrides_error := false |}.

(** A status line, two headers and the end of the headers. *)
Definition sample_events : list Op :=
  [ op_setURL "http://sim.example/cap";
    op_received_HTTP_header;
    op_received_header "Content-Type" "application/llsd+xml";
    op_received_header "Set-Cookie" "a=1";
    op_completed_headers 200%N "OK" transfer_info ].

(** A derived class of ResponderWithCompleted (or of LegacyPolledResponder)
    that overrides neither [completedRaw] nor [completed] reaches the
    aborting default; no other terminal call can abort. *)
Definition may_abort (d : Overrides) (k : ResponderClass) : bool :=
  match k with
  | class_WithCompleted | class_LegacyPolled =>
      negb (overrides_completedRaw d || overrides_completed d)
  | class_HeadersOnly | class_WithResult => false
  end.

(** What holds of a cell and its handles after [m] handles were made and
    [k] of them destroyed: the count is the number of handles alive, and
    [delete] ran once if the last handle is gone, never otherwise. *)
Definition counted (m k : nat) (s : Allocation * Handles) : Prop :=
  ResponderBase.mReferenceCount (object (fst s)) = Z.of_nat (total_held (snd s))
  /\ total_held (snd s) + k = m
  /\ deleted (fst s)
     = if Nat.ltb 0 m && Nat.eqb (total_held (snd s)) 0 then 1 else 0.

(** Header events, the terminal call, then one more event. *)
Definition sample_run : list Op :=
  sample_events
  ++ [op_finished CURLE_OK 200%N "OK" 0%Z "<llsd><undef /></llsd>";
      op_received_header "X-Late" "1"].

(** Three handles made; caller and engine let go in mixed order. *)
Definition sample_two_gone : list HandleOp :=
  [make_handle Caller; make_handle Engine; make_handle Caller;
   destroy_handle Caller; destroy_handle Engine].

(** ... and then the last one. *)
Definition sample_all_gone : list HandleOp :=
  sample_two_gone ++ [destroy_handle Caller].

(** A header entry whose name is set-cookie, in any case. *)
Definition is_cookie (kv : string * string) : bool :=
  same_header "set-cookie" (fst kv).

Definition is_status_line (e : AIBufferedCurlEasyRequestEvents) : bool :=
  match e with on_received_HTTP_header => true | _ => false end.

Definition is_completed_headers (e : AIBufferedCurlEasyRequestEvents) : bool :=
  match e with on_completed_headers _ _ _ => true | _ => false end.

(** The headers a sequence of events carries, in order. *)
Fixpoint headers_in (es : list AIBufferedCurlEasyRequestEvents)
  : list (string * string) :=
  match es with
  | [] => []
  | on_received_header key value :: rest => (key, value) :: headers_in rest
  | _ :: rest => headers_in rest
  end.

(** Code, status and reason of the last terminal call of a sequence. *)
Fixpoint last_terminal_call (ops : list Op)
  : option (CURLcode * U32 * string) :=
  match ops with
  | [] => None
  | op :: rest =>
      match last_terminal_call rest with
      | Some last => Some last
      | None =>
          match op with
          | op_finished code http_status reason _ _ =>
              Some (code, http_status, reason)
          | _ => None
          end
      end
  end.

(** The hooks the members of a class can reach. *)
Definition may_invoke (k : ResponderClass) (h : HookName) : bool :=
  match k, h with
  | _, hook_completedHeaders => true
  | (class_WithCompleted | class_LegacyPolled),
    (hook_completedRaw | hook_completed) => true
  | class_WithResult,
    (hook_result | hook_errorWithContent | hook_error | hook_llinfos) => true
  | _, _ => false
  end.

(** Two replies on one responder: a redirect that sets a cookie, then the
    page, whose headers end with [completed_headers]. *)
Definition sample_redirect : list AIBufferedCurlEasyRequestEvents :=
  [ on_received_HTTP_header;
    on_received_header "Location" "http://b.example/";
    on_received_header "Set-Cookie" "a=1";
    on_received_HTTP_header;
    on_received_header "Content-Type" "text/html";
    on_completed_headers 200%N "OK" transfer_info ].

(** The header events among the calls of a sequence. *)
Fixpoint header_events (ops : list Op)
  : list AIBufferedCurlEasyRequestEvents :=
  match ops with
  | [] => []
  | op_received_HTTP_header :: rest =>
      on_received_HTTP_header :: header_events rest
  | op_received_header key value :: rest =>
      on_received_header key value :: header_events rest
  | _ :: rest => header_events rest
  end.

(** A transfer that times out (28 is CURLE_OPERATION_TIMEDOUT), a late
    header, and a second terminal call that succeeds. *)
Definition sample_retry : list Op :=
  sample_events
  ++ [op_finished 28%Z 499%N "Timeout was reached" 0%Z "";
      op_received_header "X-Late" "1";
      op_finished CURLE_OK 200%N "OK" 0%Z "<llsd><undef /></llsd>"].

(** * Properties *)

(** ** Header names *)

Lemma same_header_refl (a : string) : same_header a a = true.
Proof. unfold same_header. apply String.eqb_refl. Qed.

Lemma same_header_sym (a b : string) : same_header a b = same_header b a.
Proof. unfold same_header. apply String.eqb_sym. Qed.

Lemma same_header_trans (a b c : string) :
  same_header a b = true -> same_header b c = same_header a c.
Proof.
  unfold same_header. intros Hab.
  apply String.eqb_eq in Hab. now rewrite Hab.
Qed.

(** ** The collector *)

Section Collector.
Import AIHTTPReceivedHeaders ResponderBase.

Lemma values_added_filter (name : string) (calls : list (string * string)) :
  values_added name calls
  = map snd (filter (fun kv => same_header name (fst kv)) calls).
Proof.
  induction calls as [|[key value] rest IH]; simpl; [reflexivity|].
  destruct (same_header name key); simpl; now rewrite IH.
Qed.

Lemma values_added_app (name : string) (xs ys : list (string * string)) :
  values_added name (xs ++ ys) = values_added name xs ++ values_added name ys.
Proof.
  rewrite !values_added_filter, filter_app, map_app. reflexivity.
Qed.

Lemma headers_after_collects (calls : list (string * string))
    (r : ResponderBase.t) :
  mReceivedHeaders (headers_after calls r) = mReceivedHeaders r ++ calls.
Proof.
  revert r. induction calls as [|[key value] rest IH]; intros r; simpl.
  - now rewrite app_nil_r.
  - rewrite IH. simpl. unfold addHeader. now rewrite <- app_assoc.
Qed.

Lemma getValues_values (name : string) (h : AIHTTPReceivedHeaders.t) :
  values (getValues name h) = values_added name h.
Proof. unfold values, getValues. simpl. now rewrite values_added_filter. Qed.

Lemma getValues_same_header (a b : string) (h : AIHTTPReceivedHeaders.t) :
  same_header a b = true -> getValues a h = getValues b h.
Proof.
  intros Hab. unfold getValues.
  assert (E : filter (fun kv => same_header a (fst kv)) h
              = filter (fun kv => same_header b (fst kv)) h).
  { apply filter_ext. intros kv.
    symmetry. apply same_header_trans. exact Hab. }
  now rewrite E.
Qed.

Lemma add_range_appends (cookies : range_type) (h : AIHTTPReceivedHeaders.t) :
  add_range cookies h = h ++ cookies.
Proof.
  revert h. induction cookies as [|[key value] rest IH]; intros h; simpl.
  - now rewrite app_nil_r.
  - rewrite IH. unfold addHeader. now rewrite <- app_assoc.
Qed.

Lemma filter_none_length {A : Type} (f : A -> bool) (l : list A) :
  Nat.eqb (List.length (filter f l)) 0 = true -> filter f l = [].
Proof.
  destruct (filter f l); [reflexivity|discriminate].
Qed.

(** What the status-line event leaves in the collector. *)
Lemma received_HTTP_header_headers (r : ResponderBase.t) :
  mReceivedHeaders (received_HTTP_header r)
  = filter (fun kv => same_header "set-cookie" (fst kv)) (mReceivedHeaders r).
Proof.
  unfold received_HTTP_header, getValues, swap. simpl.
  destruct (Nat.eqb (List.length
              (filter (fun kv => same_header "set-cookie" (fst kv))
                 (mReceivedHeaders r))) 0) eqn:E; simpl.
  - now rewrite (filter_none_length _ _ E).
  - now rewrite add_range_appends.
Qed.

Lemma filter_filter_same {A : Type} (f g : A -> bool) (l : list A) :
  filter f (filter g l) = filter (fun x => f x && g x) l.
Proof.
  induction l as [|x rest IH]; simpl; [reflexivity|].
  destruct (g x); simpl; destruct (f x); simpl; now rewrite IH.
Qed.

Lemma filter_all_false {A : Type} (f : A -> bool) (l : list A) :
  (forall x, f x = false) -> filter f l = [].
Proof.
  intros Hf. induction l as [|x rest IH]; simpl; [reflexivity|].
  now rewrite Hf.
Qed.

(** C7: after any sequence of [received_header(key, value)] events on a
    new responder, [getValues(name)] spans exactly the values added under
    [name], oldest first, and reports whether there is one; names that
    differ only in case give the same answer; and adding a header keeps
    every value already held under any name, in place, appending the new
    value only where the name matches. *)
Theorem getValues_returns_values_added :
  forall (code0 : CURLcode) (calls : list (string * string)) (name : string),
    let h := mReceivedHeaders (headers_after calls (ctor code0)) in
    values (getValues name h) = values_added name calls
    /\ fst (getValues name h)
       = negb (Nat.eqb (List.length (values_added name calls)) 0)
    /\ (forall name', same_header name name' = true ->
          getValues name' h = getValues name h)
    /\ (forall key value,
          values (getValues name (addHeader key value h))
          = values (getValues name h)
            ++ (if same_header name key then [value] else [])).
Proof.
  intros code0 calls name h.
  assert (Hh : h = calls).
  { unfold h. rewrite headers_after_collects. reflexivity. }
  rewrite Hh. repeat split.
  - apply getValues_values.
  - unfold getValues. simpl.
    now rewrite values_added_filter, length_map.
  - intros name' Hn. symmetry. now apply getValues_same_header.
  - intros key value. rewrite !getValues_values.
    unfold addHeader. rewrite values_added_app. simpl.
    now destruct (same_header name key).
Qed.

(** C2: whatever the responder held, after [received_HTTP_header] the
    collector is exactly the entries that were held under a name equal to
    "set-cookie" up to case, in their order: asking for "set-cookie" (in
    any case) gives what it gave before, asking for any other name finds
    nothing, and no other field of the responder moves.  In particular
    after a sequence of [received_header] events on a new responder the
    values left are the values added under "set-cookie". *)
Theorem received_HTTP_header_keeps_only_cookies :
  forall (r : ResponderBase.t),
    let r' := received_HTTP_header r in
    mReceivedHeaders r' = snd (getValues "set-cookie" (mReceivedHeaders r))
    /\ (forall name,
          getValues name (mReceivedHeaders r')
          = if same_header name "set-cookie"
            then getValues "set-cookie" (mReceivedHeaders r)
            else (false, []))
    /\ (forall code0 calls,
          r = headers_after calls (ctor code0) ->
          map snd (mReceivedHeaders r') = values_added "set-cookie" calls)
    /\ mURL r' = mURL r /\ mCode r' = mCode r
    /\ mFinished r' = mFinished r
    /\ mReferenceCount r' = mReferenceCount r.
Proof.
  intros r r'.
  assert (Hh : mReceivedHeaders r'
               = filter (fun kv => same_header "set-cookie" (fst kv))
                   (mReceivedHeaders r))
    by apply received_HTTP_header_headers.
  split; [exact Hh|]. split; [|split].
  - intros name. rewrite Hh.
    destruct (same_header name "set-cookie") eqn:E.
    + rewrite (getValues_same_header _ _ _ E).
      unfold getValues. rewrite filter_filter_same.
      assert (F : filter (fun x : string * string =>
                     same_header "set-cookie" (fst x)
                     && same_header "set-cookie" (fst x)) (mReceivedHeaders r)
                  = filter (fun kv => same_header "set-cookie" (fst kv))
                      (mReceivedHeaders r)).
      { apply filter_ext. intros kv. apply andb_diag. }
      now rewrite F.
    + unfold getValues. rewrite filter_filter_same.
      rewrite filter_all_false; [reflexivity|].
      intros kv. destruct (same_header "set-cookie" (fst kv)) eqn:F.
      * rewrite andb_true_r.
        rewrite (same_header_sym name (fst kv)).
        rewrite (same_header_trans _ _ name F).
        now rewrite same_header_sym.
      * apply andb_false_r.
  - intros code0 calls Hr. rewrite Hh, Hr, headers_after_collects.
    simpl. now rewrite values_added_filter.
  - unfold r', received_HTTP_header.
    destruct (getValues "set-cookie" (mReceivedHeaders r)) as [found cookies].
    repeat split.
Qed.

End Collector.

(** ** The decoding cascade *)

(** Unfold a terminal call down to the hooks it reaches. *)
Ltac unfold_cascade :=
  cbv [ResponderHeadersOnly.finished ResponderWithCompleted.finished
       ResponderWithCompleted.completedRaw ResponderWithCompleted.completed
       ResponderWithResult.finished ResponderWithResult.pubErrorWithContent
       ResponderWithResult.pubResult ResponderWithResult.result
       ResponderWithResult.errorWithContent ResponderWithResult.error
       LegacyPolledResponder.finished LegacyPolledResponder.set_base
       LegacyPolledResponder.http_status LegacyPolledResponder.reason
       ResponderBase.completed_headers ResponderBase.completedHeaders
       virtual bind ret emit abort trace outcome fst snd app].

(** Split on which hooks the derived class overrides. *)
Ltac by_overrides d :=
  destruct d as [oh oraw ocompleted oewc oerror];
  cbv [overrides_completedHeaders overrides_completedRaw overrides_completed
       overrides_errorWithContent overrides_error];
  destruct oh, oraw, ocompleted, oewc, oerror.

Section Cascade.
Context `{LLSDSerialize}.
Import ResponderBase.


(** C5: a ResponderWithCompleted whose class does not override
    [completedRaw] has its body interpreted as LLSD at every status,
    success or not, and [completed] receives the status, the reason and
    the decoded value (the undefined value when the body does not parse);
    one whose class overrides [completedRaw] receives status, reason,
    channels and buffer exactly as [finished] got them, and nothing is
    decoded. *)
Theorem ResponderWithCompleted_finished_cascade :
  forall (d : Overrides) (code : CURLcode) (status : U32) (reason : string)
         (channels : LLChannelDescriptors) (buffer : buffer_ptr_t)
         (r : ResponderBase.t),
    let m := ResponderWithCompleted.finished d code status reason channels
               buffer r in
    if overrides_completedRaw d
    then trace m = [Invoke (call_completedRaw status reason channels buffer)]
         /\ outcome m = Some (set_mFinished true (set_mCode code r))
    else trace m
         = [Invoke (call_completedRaw status reason channels buffer);
            Invoke (call_completed status reason
                      match fromXML buffer with
                      | Some v => v
                      | None => LLSD_Undefined
                      end)]
         /\ outcome m
            = if overrides_completed d
              then Some (set_mFinished true (set_mCode code r))
              else None.
Proof.
  intros d code status reason channels buffer r m. subst m.
  unfold_cascade. unfold interpret_as_LLSD.
  by_overrides d; split; reflexivity.
Qed.


(** C9, as the code has it: on a ResponderWithResult the terminal call and
    [pubErrorWithContent] always return, whatever is overridden, and so does
    the terminal call of a ResponderHeadersOnly; with no error hook
    overridden (ResponderIgnore) a status outside 200..299 runs
    [errorWithContent], then [error], which writes one line to llinfos.
    The terminal call of a ResponderWithCompleted returns exactly when the
    class overrides [completedRaw] or [completed]: the default [completed]
    aborts. *)
Theorem default_hooks_log_or_abort :
  forall (d : Overrides) (code : CURLcode) (status : U32) (reason : string)
         (channels : LLChannelDescriptors) (buffer : buffer_ptr_t)
         (content : LLSD) (r : ResponderBase.t),
    outcome (ResponderWithResult.finished d code status reason channels
               buffer r)
    = Some (set_mFinished true (set_mCode code r))
    /\ outcome (ResponderWithResult.pubErrorWithContent d code status reason
                  content r)
       = Some (set_mFinished true (set_mCode code r))
    /\ outcome (ResponderHeadersOnly.finished d code status reason channels
                  buffer r)
       = Some (set_mFinished true (set_mCode code r))
    /\ trace (ResponderWithResult.finished ResponderIgnore code status reason
                channels buffer r)
       = (if status_indicates_success status
          then [Invoke (call_result (interpret_as_LLSD channels buffer))]
          else [Invoke (call_errorWithContent status reason
                          (interpret_as_LLSD channels buffer));
                Invoke (call_error status reason);
                llinfos (mURL r) status reason])
    /\ outcome (ResponderWithCompleted.finished d code status reason channels
                  buffer r)
       = if overrides_completedRaw d || overrides_completed d
         then Some (set_mFinished true (set_mCode code r))
         else None.
Proof.
  intros d code status reason channels buffer content r.
  split; [|split; [|split; [|split]]].
  - unfold_cascade.
    destruct (status_indicates_success status); by_overrides d; reflexivity.
  - unfold_cascade. by_overrides d; reflexivity.
  - unfold_cascade. by_overrides d; reflexivity.
  - unfold_cascade. cbv [ResponderIgnore no_overrides overrides_errorWithContent
                         overrides_error].
    destruct (status_indicates_success status); reflexivity.
  - unfold_cascade. by_overrides d; reflexivity.
Qed.

(** C4: the terminal call of a LegacyPolledResponder returns exactly when
    the one of its ResponderWithCompleted base does; the object it leaves
    answers [http_status()] and [reason()] with the arguments of the call,
    whichever hooks are overridden; and the base class ran as usual: same
    hooks invoked, transport code recorded, finished flag set. *)
Theorem LegacyPolledResponder_finished_caches_status :
  forall (d : Overrides) (code : CURLcode) (status : U32) (reason : string)
         (channels : LLChannelDescriptors) (buffer : buffer_ptr_t)
         (p : LegacyPolledResponder.t),
    let m := LegacyPolledResponder.finished d code status reason channels
               buffer p in
    let base_m := ResponderWithCompleted.finished d code status reason
                    channels buffer (LegacyPolledResponder.base p) in
    (forall p', outcome m = Some p' ->
       LegacyPolledResponder.http_status p' = status
       /\ LegacyPolledResponder.reason p' = reason
       /\ LegacyPolledResponder.base p'
          = set_mFinished true (set_mCode code (LegacyPolledResponder.base p)))
    /\ trace m = trace base_m
    /\ option_map LegacyPolledResponder.base (outcome m) = outcome base_m
    /\ outcome m
       = if overrides_completedRaw d || overrides_completed d
         then Some {| LegacyPolledResponder.base :=
                        set_mFinished true
                          (set_mCode code (LegacyPolledResponder.base p));
                      LegacyPolledResponder.mStatus := status;
                      LegacyPolledResponder.mReason := reason |}
         else None.
Proof.
  intros d code status reason channels buffer p m base_m. subst m base_m.
  unfold_cascade.
  by_overrides d; simpl;
    (split; [intros p' Hp'; inversion Hp'; subst; simpl; repeat split
            |repeat split]).
Qed.

End Cascade.

(** ** The completion flag *)

Lemma bind_returns {A B : Type} (m : M A) (k : A -> M B) (t : list Event)
    (b : B) :
  bind m k = (t, Some b) ->
  exists t1 a t2, m = (t1, Some a) /\ k a = (t2, Some b) /\ t = t1 ++ t2.
Proof.
  destruct m as [t1 [a|]]; simpl; [|discriminate].
  destruct (k a) as [t2 ob] eqn:K. intros E. inversion E; subst.
  exists t1, a, t2. repeat split. exact K.
Qed.

Lemma received_HTTP_header_flag (r : ResponderBase.t) :
  ResponderBase.mFinished (ResponderBase.received_HTTP_header r)
  = ResponderBase.mFinished r.
Proof.
  unfold ResponderBase.received_HTTP_header.
  destruct (AIHTTPReceivedHeaders.getValues _ _) as [found cookies].
  reflexivity.
Qed.

Lemma is_finished_with_base (b : ResponderBase.t) (o : Responder) :
  is_finished (with_base b o) = ResponderBase.mFinished b.
Proof. destruct o; reflexivity. Qed.

Lemma class_of_with_base (b : ResponderBase.t) (o : Responder) :
  class_of (with_base b o) = class_of o.
Proof. destruct o; reflexivity. Qed.

Section Lifecycle.
Context `{HttpStatusCodes} `{LLSDSerialize}.

Lemma class_of_new (k : ResponderClass) (code0 : CURLcode) :
  class_of (new k code0) = k.
Proof. destruct k; reflexivity. Qed.

Lemma is_finished_new (k : ResponderClass) (code0 : CURLcode) :
  is_finished (new k code0) = false.
Proof. destruct k; reflexivity. Qed.

(** One call: the class stays, and the flag afterwards is the flag before
    or-ed with "this call completes the transaction". *)
Lemma call_flag (d : Overrides) (o o' : Responder) (op : Op)
    (t : list Event) :
  call d o op = (t, Some o') ->
  class_of o' = class_of o
  /\ is_finished o'
     = is_finished o || (completing op && has_member (class_of o) op).
Proof.
  destruct op; simpl.
  - intros E; inversion E; subst.
    rewrite class_of_with_base, is_finished_with_base.
    rewrite orb_false_r. destruct o; split; reflexivity.
  - intros E; inversion E; subst.
    rewrite class_of_with_base, is_finished_with_base,
      received_HTTP_header_flag.
    rewrite orb_false_r. destruct o; split; reflexivity.
  - intros E; inversion E; subst.
    rewrite class_of_with_base, is_finished_with_base.
    rewrite orb_false_r. destruct o; split; reflexivity.
  - unfold_cascade. destruct (overrides_completedHeaders d);
      intros E; inversion E; subst;
      rewrite class_of_with_base, is_finished_with_base, orb_false_r;
      destruct o; split; reflexivity.
  - destruct o; unfold finished; unfold_cascade;
      try destruct (ResponderBase.status_indicates_success http_status);
      by_overrides d; intros E; inversion E; subst;
      split; try reflexivity; unfold is_finished; simpl;
      now rewrite orb_true_r.
  - destruct o; unfold_cascade;
      try (intros E; inversion E; subst; split;
           [reflexivity | now rewrite orb_false_r]).
    by_overrides d; intros E; inversion E; subst;
      split; try reflexivity; unfold is_finished; simpl;
      now rewrite orb_true_r.
  - destruct o; unfold_cascade;
      intros E; inversion E; subst; split; try reflexivity;
      try (now rewrite orb_false_r).
    unfold is_finished; simpl; now rewrite orb_true_r.
Qed.

Lemma run_flag (d : Overrides) (ops : list Op) :
  forall (o o' : Responder) (t : list Event),
    run d o ops = (t, Some o') ->
    class_of o' = class_of o
    /\ is_finished o'
       = is_finished o
         || existsb (fun op => completing op && has_member (class_of o) op) ops.
Proof.
  induction ops as [|op rest IH]; intros o o' t; simpl.
  - intros E; inversion E; subst. split; [reflexivity|].
    now rewrite orb_false_r.
  - intros E. apply bind_returns in E.
    destruct E as (t1 & o1 & t2 & E1 & E2 & _).
    apply call_flag in E1. destruct E1 as [K1 F1].
    apply IH in E2. destruct E2 as [K2 F2].
    split; [congruence|].
    rewrite F2, F1, K1. now rewrite orb_assoc.
Qed.

(** A call returns unless it is a terminal call that reaches the aborting
    default of [completed]. *)
Lemma call_returns (d : Overrides) (o : Responder) (op : Op) :
  may_abort d (class_of o) = false ->
  exists t o', call d o op = (t, Some o').
Proof.
  intros Hsafe. destruct op; simpl; try (eexists; eexists; reflexivity).
  - unfold_cascade. destruct (overrides_completedHeaders d);
      eexists; eexists; reflexivity.
  - destruct o; unfold finished; unfold_cascade;
      try destruct (ResponderBase.status_indicates_success http_status);
      revert Hsafe; by_overrides d; simpl; intros Hsafe;
      try discriminate; eexists; eexists; reflexivity.
  - destruct o; unfold_cascade; try (eexists; eexists; reflexivity).
    by_overrides d; eexists; eexists; reflexivity.
  - destruct o; unfold_cascade; eexists; eexists; reflexivity.
Qed.

Lemma run_returns (d : Overrides) (ops : list Op) :
  forall o : Responder,
    may_abort d (class_of o) = false ->
    exists t o', run d o ops = (t, Some o').
Proof.
  induction ops as [|op rest IH]; intros o Hsafe; simpl.
  - eexists; eexists; reflexivity.
  - destruct (call_returns d o op Hsafe) as (t1 & o1 & E1).
    assert (K : class_of o1 = class_of o) by (apply (call_flag _ _ _ _ _ E1)).
    destruct (IH o1) as (t2 & o2 & E2); [now rewrite K|].
    rewrite E1. simpl. rewrite E2. eexists; eexists; reflexivity.
Qed.

Lemma existsb_completing_members (k : ResponderClass) (ops : list Op) :
  forallb (has_member k) ops = true ->
  existsb (fun op => completing op && has_member k op) ops
  = existsb completing ops.
Proof.
  induction ops as [|op rest IH]; simpl; [reflexivity|].
  intros Hm. apply andb_true_iff in Hm. destruct Hm as [Hop Hrest].
  now rewrite Hop, andb_true_r, IH.
Qed.

(** C1, as the code has it: on a new responder of any class,
    [is_finished()] is false; after a sequence of calls that the class
    declares and that returns, it is true exactly when one of them was a
    completing call -- the terminal call [finished], or [pubResult] or
    [pubErrorWithContent], which ResponderWithResult adds -- and from then
    on it is true after every further sequence of calls.  Such a sequence
    does return unless a terminal call reaches the aborting default of
    [completed]. *)
Theorem is_finished_iff_completing_call :
  forall (d : Overrides) (k : ResponderClass) (code0 : CURLcode)
         (ops : list Op) (t : list Event) (o' : Responder),
    forallb (has_member k) ops = true ->
    run d (new k code0) ops = (t, Some o') ->
    is_finished (new k code0) = false
    /\ is_finished o' = existsb completing ops
    /\ (forall more t' o'',
          is_finished o' = true ->
          run d o' more = (t', Some o'') -> is_finished o'' = true)
    /\ (forall more,
          may_abort d k = false ->
          exists t' o'', run d o' more = (t', Some o'')).
Proof.
  intros d k code0 ops t o' Hm E.
  destruct (run_flag d ops _ _ _ E) as [K F].
  rewrite class_of_new in K, F.
  split; [apply is_finished_new|]. split; [|split].
  - rewrite F, is_finished_new. simpl.
    now apply existsb_completing_members.
  - intros more t' o'' Hfin E'.
    destruct (run_flag d more _ _ _ E') as [_ F'].
    rewrite F', Hfin. reflexivity.
  - intros more Hsafe. apply run_returns. now rewrite K.
Qed.

(** Before the terminal call a LegacyPolledResponder keeps its two cached
    fields, and no call aborts. *)
Lemma LegacyPolled_call_before_terminal (d : Overrides)
    (p : LegacyPolledResponder.t) (op : Op) :
  is_terminal_call op = false ->
  exists t p',
    call d (LegacyPolled p) op = (t, Some (LegacyPolled p'))
    /\ LegacyPolledResponder.mStatus p' = LegacyPolledResponder.mStatus p
    /\ LegacyPolledResponder.mReason p' = LegacyPolledResponder.mReason p
    /\ ResponderBase.mFinished (LegacyPolledResponder.base p')
       = ResponderBase.mFinished (LegacyPolledResponder.base p).
Proof.
  destruct op; try discriminate; intros _.
  - eexists; eexists; repeat split.
  - eexists; eexists. split; [reflexivity|].
    split; [reflexivity|]. split; [reflexivity|].
    apply received_HTTP_header_flag.
  - eexists; eexists; repeat split.
  - unfold call. unfold_cascade. destruct (overrides_completedHeaders d);
      eexists; eexists; repeat split.
  - eexists; eexists; repeat split.
  - eexists; eexists; repeat split.
Qed.

(** C10: a LegacyPolledResponder that has received any calls but no
    terminal call is not finished, and its accessors answer with the
    constructor's values: [http_status()] is HTTP_INTERNAL_ERROR and
    [reason()] is the empty string. *)
Theorem LegacyPolledResponder_defaults_before_finished :
  forall (d : Overrides) (code0 : CURLcode) (ops : list Op),
    existsb is_terminal_call ops = false ->
    exists t p',
      run d (new class_LegacyPolled code0) ops = (t, Some (LegacyPolled p'))
      /\ LegacyPolledResponder.http_status p' = HTTP_INTERNAL_ERROR
      /\ LegacyPolledResponder.reason p' = ""
      /\ is_finished (LegacyPolled p') = false.
Proof.
  intros d code0 ops. simpl new.
  assert (G : forall p,
             existsb is_terminal_call ops = false ->
             exists t p',
               run d (LegacyPolled p) ops = (t, Some (LegacyPolled p'))
               /\ LegacyPolledResponder.mStatus p'
                  = LegacyPolledResponder.mStatus p
               /\ LegacyPolledResponder.mReason p'
                  = LegacyPolledResponder.mReason p
               /\ ResponderBase.mFinished (LegacyPolledResponder.base p')
                  = ResponderBase.mFinished (LegacyPolledResponder.base p)).
  { induction ops as [|op rest IH]; intros p; simpl.
    - intros _. eexists; eexists; repeat split.
    - intros Hno. apply orb_false_iff in Hno. destruct Hno as [Hop Hrest].
      destruct (LegacyPolled_call_before_terminal d p op Hop)
        as (t1 & p1 & E1 & S1 & R1 & F1).
      destruct (IH p1 Hrest) as (t2 & p2 & E2 & S2 & R2 & F2).
      rewrite E1. simpl. rewrite E2.
      eexists; eexists. split; [reflexivity|].
      repeat split; congruence. }
  intros Hno. destruct (G (LegacyPolledResponder.ctor code0) Hno)
    as (t & p' & E & S & R & F).
  exists t, p'. split; [exact E|].
  split; [exact S|]. split; [exact R|exact F].
Qed.

End Lifecycle.

(** ** The reference count *)

Section ReferenceCount.
Import ResponderBase.

Lemma total_held_gain (who : Holder) (h : Handles) :
  total_held (gain who h) = S (total_held h).
Proof. destruct who; unfold total_held; simpl; lia. Qed.

Lemma total_held_lose (who : Holder) (h : Handles) :
  0 < held h who -> S (total_held (lose who h)) = total_held h.
Proof. destruct who; unfold total_held, held; simpl; lia. Qed.

Lemma U32_wrap_small (z : Z) : (0 <= z < 2 ^ 32)%Z -> U32_wrap z = z.
Proof. intros Hz. unfold U32_wrap. now apply Z.mod_small. Qed.

Lemma intrusive_ptr_add_ref_spec (p : Allocation) :
  mReferenceCount (object (intrusive_ptr_add_ref p))
  = U32_wrap (mReferenceCount (object p) + 1)
  /\ deleted (intrusive_ptr_add_ref p) = deleted p.
Proof. split; reflexivity. Qed.

Lemma intrusive_ptr_release_spec (p : Allocation) :
  mReferenceCount (object (intrusive_ptr_release p))
  = U32_wrap (mReferenceCount (object p) - 1)
  /\ deleted (intrusive_ptr_release p)
     = if (U32_wrap (mReferenceCount (object p) - 1) =? 0)%Z
       then S (deleted p) else deleted p.
Proof.
  unfold intrusive_ptr_release.
  destruct (U32_wrap (mReferenceCount (object p) - 1) =? 0)%Z;
    split; reflexivity.
Qed.

Lemma handle_step_counted (m k : nat) (s s' : Allocation * Handles)
    (op : HandleOp) :
  counted m k s ->
  handle_step s op = Some s' ->
  (Z.of_nat (match op with make_handle _ => S m | _ => m end) < 2 ^ 32)%Z ->
  match op with
  | make_handle _ => counted (S m) k s'
  | destroy_handle _ => counted m (S k) s'
  end.
Proof.
  destruct s as [p h]. unfold counted, handle_step.
  cbn [fst snd].
  intros (Hc & Hm & Hd) Hstep Hbound. destruct op as [who|who].
  - destruct (Nat.eqb (deleted p) 0) eqn:Alive; [|discriminate].
    injection Hstep as <-. cbn [fst snd].
    destruct (intrusive_ptr_add_ref_spec p) as [Ec Ed].
    rewrite Ec, Ed, total_held_gain, Hc.
    apply Nat.eqb_eq in Alive.
    split; [|split].
    + rewrite U32_wrap_small; lia.
    + lia.
    + exact Alive.
  - destruct (Nat.ltb 0 (held h who)) eqn:Has; [|discriminate].
    apply Nat.ltb_lt in Has.
    pose proof (total_held_lose who h Has) as Hl.
    assert (Hnow : deleted p = 0).
    { rewrite Hd. destruct (Nat.eqb (total_held h) 0) eqn:Z0.
      - apply Nat.eqb_eq in Z0. lia.
      - now rewrite andb_false_r. }
    assert (Hw : U32_wrap (mReferenceCount (object p) - 1)
                 = Z.of_nat (total_held (lose who h))).
    { rewrite Hc. rewrite U32_wrap_small; lia. }
    injection Hstep as <-. cbn [fst snd].
    destruct (intrusive_ptr_release_spec p) as [Ec Ed].
    rewrite Ec, Ed, Hw, Hnow.
    split; [reflexivity|]. split; [lia|].
    destruct (total_held (lose who h)) as [|n] eqn:E0.
    + simpl. destruct m; [lia|reflexivity].
    + rewrite andb_false_r. reflexivity.
Qed.

Lemma made_cons (op : HandleOp) (ops : list HandleOp) :
  made (op :: ops)
  = match op with make_handle _ => S (made ops) | _ => made ops end.
Proof. destruct op; reflexivity. Qed.

Lemma destroyed_cons (op : HandleOp) (ops : list HandleOp) :
  destroyed (op :: ops)
  = match op with
    | destroy_handle _ => S (destroyed ops)
    | _ => destroyed ops
    end.
Proof. destruct op; reflexivity. Qed.

Lemma handle_run_counted (ops : list HandleOp) :
  forall (m k : nat) (s s' : Allocation * Handles),
    counted m k s ->
    handle_run s ops = Some s' ->
    (Z.of_nat (m + made ops) < 2 ^ 32)%Z ->
    counted (m + made ops) (k + destroyed ops) s'.
Proof.
  induction ops as [|op rest IH]; intros m k s s' Hs Hrun Hbound.
  - simpl in Hrun. inversion Hrun; subst.
    unfold made, destroyed. simpl. now rewrite !Nat.add_0_r.
  - simpl in Hrun. destruct (handle_step s op) as [s1|] eqn:Hstep;
      [|discriminate].
    rewrite made_cons in Hbound. rewrite made_cons, destroyed_cons.
    pose proof (handle_step_counted m k s s1 op Hs Hstep) as Hone.
    destruct op as [who|who].
    + replace (m + S (made rest)) with (S m + made rest) in * by lia.
      apply (IH (S m) k s1 s'); [apply Hone; lia|exact Hrun|exact Hbound].
    + replace (k + S (destroyed rest)) with (S k + destroyed rest) by lia.
      apply (IH m (S k) s1 s'); [apply Hone; lia|exact Hrun|exact Hbound].
Qed.

(** C6: take a new responder and any sequence of handle constructions and
    destructions by the engine and the caller that the program can perform,
    making fewer than 2^32 handles (the counter is 32 bits wide).  Then the
    reference count is the number of handles alive (each construction added
    one, each destruction took one away); while fewer handles were
    destroyed than made the object has not been deleted; and once as many
    were destroyed as made it has been deleted exactly once -- in whatever
    order engine and caller let go. *)
Theorem responder_deleted_with_last_handle :
  forall (code0 : CURLcode) (ops : list HandleOp) (p : Allocation)
         (h : Handles),
    (Z.of_nat (made ops) < 2 ^ 32)%Z ->
    handle_run (fresh_allocation code0) ops = Some (p, h) ->
    mReferenceCount (object p) = Z.of_nat (total_held h)
    /\ total_held h + destroyed ops = made ops
    /\ (destroyed ops < made ops -> deleted p = 0)
    /\ (0 < made ops -> destroyed ops = made ops -> deleted p = 1)
    /\ (made ops = 0 -> deleted p = 0).
Proof.
  intros code0 ops p h Hbound Hrun.
  assert (H0 : counted 0 0 (fresh_allocation code0)).
  { unfold counted, fresh_allocation. simpl. repeat split. }
  pose proof (handle_run_counted ops 0 0 _ _ H0 Hrun Hbound) as (Hc & Hm & Hd).
  simpl in Hc, Hm, Hd.
  split; [exact Hc|]. split; [exact Hm|]. split; [|split].
  - intros Hlt. rewrite Hd.
    destruct (Nat.eqb (total_held h) 0) eqn:Z0.
    + apply Nat.eqb_eq in Z0. lia.
    + now rewrite andb_false_r.
  - intros Hpos Hall. rewrite Hd.
    assert (E0 : total_held h = 0) by lia. rewrite E0.
    destruct (made ops); [lia|reflexivity].
  - intros Hnone. rewrite Hd, Hnone. reflexivity.
Qed.

End ReferenceCount.

(** ** Further properties of the inline members *)

Section InlineMembers.
Context `{LLSDSerialize}.
Import ResponderBase.

(** X1: the transport code is recorded: when the terminal call of a
    ResponderHeadersOnly, a ResponderWithCompleted or a
    LegacyPolledResponder returns, [result_code()] is the [code] it was
    given, the finished flag is set, and url, collector and reference
    count are as before; [pubErrorWithContent] does the same with its
    [code] and [pubResult] with CURLE_OK. *)
Theorem terminal_call_records_transport_code :
  forall (d : Overrides) (code : CURLcode) (status : U32) (reason : string)
         (channels : LLChannelDescriptors) (buffer : buffer_ptr_t)
         (content : LLSD) (b : ResponderBase.t) (p : LegacyPolledResponder.t),
    let recorded (c : CURLcode) (before after : ResponderBase.t) :=
      result_code after = c /\ is_finished after = true
      /\ mURL after = mURL before
      /\ mReceivedHeaders after = mReceivedHeaders before
      /\ mReferenceCount after = mReferenceCount before in
    (exists b',
       outcome (ResponderHeadersOnly.finished d code status reason channels
                  buffer b) = Some b'
       /\ recorded code b b')
    /\ (forall b',
          outcome (ResponderWithCompleted.finished d code status reason
                     channels buffer b) = Some b' ->
          recorded code b b')
    /\ (forall p',
          outcome (LegacyPolledResponder.finished d code status reason
                     channels buffer p) = Some p' ->
          recorded code (LegacyPolledResponder.base p)
            (LegacyPolledResponder.base p'))
    /\ (exists b',
          outcome (ResponderWithResult.pubErrorWithContent d code status
                     reason content b) = Some b'
          /\ recorded code b b')
    /\ (exists b',
          outcome (ResponderWithResult.pubResult content b) = Some b'
          /\ recorded CURLE_OK b b').
Proof.
  intros d code status reason channels buffer content b p recorded.
  subst recorded. cbv beta.
  split; [|split; [|split; [|split]]].
  - exists (set_mFinished true (set_mCode code b)).
    split; [|repeat split]. unfold_cascade. by_overrides d; reflexivity.
  - intros b'. unfold_cascade.
    by_overrides d; intros E; inversion E; subst; repeat split.
  - intros p'. unfold_cascade.
    by_overrides d; intros E; inversion E; subst; repeat split.
  - exists (set_mFinished true (set_mCode code b)).
    split; [|repeat split]. unfold_cascade. by_overrides d; reflexivity.
  - exists (set_mFinished true (set_mCode CURLE_OK b)).
    split; [reflexivity|repeat split].
Qed.

(** The terminal call of a ResponderHeadersOnly hands [completedHeaders]
    the status, the reason and the collector as it stands, once, and so
    does the event [completed_headers], which leaves the object as it
    was. *)
Theorem ResponderHeadersOnly_reports_headers :
  forall (d : Overrides) (code : CURLcode) (status : U32) (reason : string)
         (channels : LLChannelDescriptors) (buffer : buffer_ptr_t)
         (info : AITransferInfo) (b : ResponderBase.t),
    trace (ResponderHeadersOnly.finished d code status reason channels
             buffer b)
    = [Invoke (call_completedHeaders status reason (mReceivedHeaders b))]
    /\ completed_headers d status reason info b
       = ([Invoke (call_completedHeaders status reason (mReceivedHeaders b))],
          Some b).
Proof.
  intros d code status reason channels buffer info b.
  split; unfold_cascade; by_overrides d; reflexivity.
Qed.

(** Cookies survive a redirect: on a new responder, after a status line,
    the headers [first] of the redirecting reply, a second status line and
    the headers [second] of the final reply, the collector holds the
    set-cookie entries of [first] followed by all of [second]. *)
Theorem cookies_survive_redirect :
  forall (code0 : CURLcode) (first second : list (string * string)),
    mReceivedHeaders
      (headers_after second
         (received_HTTP_header
            (headers_after first (received_HTTP_header (ctor code0)))))
    = filter (fun kv => same_header "set-cookie" (fst kv)) first ++ second.
Proof.
  intros code0 first second.
  rewrite headers_after_collects, received_HTTP_header_headers.
  rewrite headers_after_collects, received_HTTP_header_headers.
  reflexivity.
Qed.

(** The three events leave the transport code, the finished flag, the
    reference count and the url alone; [completed_headers] leaves the whole
    object alone. *)
Theorem events_keep_completion_state :
  forall (d : Overrides) (key value reason : string) (status : U32)
         (info : AITransferInfo) (b : ResponderBase.t),
    let same_completion (b' : ResponderBase.t) :=
      mCode b' = mCode b /\ mFinished b' = mFinished b
      /\ mReferenceCount b' = mReferenceCount b /\ mURL b' = mURL b in
    same_completion (received_header key value b)
    /\ same_completion (received_HTTP_header b)
    /\ outcome (completed_headers d status reason info b) = Some b.
Proof.
  intros d key value reason status info b same_completion.
  subst same_completion. cbv beta.
  split; [|split].
  - repeat split.
  - unfold received_HTTP_header.
    destruct (AIHTTPReceivedHeaders.getValues _ _) as [found cookies].
    repeat split.
  - unfold_cascade. by_overrides d; reflexivity.
Qed.

End InlineMembers.

(** A ResponderHeadersOnly asks for headers and follows redirects, so a
    redirect status is acceptable to it; the other framework classes do
    neither. *)
Theorem only_ResponderHeadersOnly_follows_redirects :
  forall k : ResponderClass,
    needsHeaders k = match k with class_HeadersOnly => true | _ => false end
    /\ followRedir k = needsHeaders k
    /\ redirect_status_ok k = followRedir k.
Proof. intros k. destruct k; repeat split. Qed.

(** ** Sequences of events *)

Lemma filter_idempotent {A : Type} (f : A -> bool) (l : list A) :
  filter f (filter f l) = filter f l.
Proof.
  rewrite filter_filter_same. apply filter_ext. intros x. apply andb_diag.
Qed.

Lemma trace_bind {A B : Type} (m : M A) (k : A -> M B) :
  trace (bind m k)
  = match outcome m with
    | Some a => trace m ++ trace (k a)
    | None => trace m
    end.
Proof.
  destruct m as [t [a|]]; simpl; [|reflexivity].
  destruct (k a) as [t' b]. reflexivity.
Qed.

Lemma outcome_bind {A B : Type} (m : M A) (k : A -> M B) :
  outcome (bind m k)
  = match outcome m with
    | Some a => outcome (k a)
    | None => None
    end.
Proof.
  destruct m as [t [a|]]; simpl; [|reflexivity].
  destruct (k a) as [t' b]. reflexivity.
Qed.

Section EventSequences.
Import AIHTTPReceivedHeaders ResponderBase.

Lemma received_HTTP_header_filters (r : ResponderBase.t) :
  received_HTTP_header r
  = set_mReceivedHeaders (filter is_cookie (mReceivedHeaders r)) r.
Proof.
  unfold received_HTTP_header, getValues, swap. cbn [fst snd].
  fold is_cookie.
  destruct (Nat.eqb (List.length (filter is_cookie (mReceivedHeaders r))) 0)
    eqn:E; cbn [negb].
  - now rewrite (filter_none_length _ _ E).
  - now rewrite add_range_appends.
Qed.

(** X2: the status-line event is idempotent; it commutes with a set-cookie
    header and swallows any other header that came before it; with no
    set-cookie header held it empties the collector; and whatever it leaves
    was held before and is a set-cookie header. *)
Theorem received_HTTP_header_laws :
  forall (r : ResponderBase.t) (key value : string),
    received_HTTP_header (received_HTTP_header r) = received_HTTP_header r
    /\ received_HTTP_header (received_header key value r)
       = (if same_header "set-cookie" key
          then received_header key value (received_HTTP_header r)
          else received_HTTP_header r)
    /\ (fst (getValues "set-cookie" (mReceivedHeaders r)) = false ->
        mReceivedHeaders (received_HTTP_header r) = empty)
    /\ (forall kv,
          In kv (mReceivedHeaders (received_HTTP_header r)) ->
          In kv (mReceivedHeaders r) /\ is_cookie kv = true).
Proof.
  intros r key value. split; [|split; [|split]].
  - rewrite !received_HTTP_header_filters. cbn [mReceivedHeaders
      set_mReceivedHeaders]. rewrite filter_idempotent.
    reflexivity.
  - rewrite !received_HTTP_header_filters. unfold received_header, addHeader.
    cbn [mReceivedHeaders set_mReceivedHeaders].
    rewrite filter_app. cbn [filter]. unfold is_cookie at 2. cbn [fst].
    destruct (same_header "set-cookie" key).
    + unfold set_mReceivedHeaders. cbn. reflexivity.
    + rewrite app_nil_r. unfold set_mReceivedHeaders. cbn. reflexivity.
  - unfold getValues. cbn [fst]. intros Hnone.
    apply negb_false_iff in Hnone.
    rewrite received_HTTP_header_filters. cbn [mReceivedHeaders
      set_mReceivedHeaders].
    exact (filter_none_length _ _ Hnone).
  - intros kv. rewrite received_HTTP_header_filters.
    cbn [mReceivedHeaders set_mReceivedHeaders].
    intros Hin. apply filter_In in Hin. exact Hin.
Qed.

Lemma deliver_all_app (d : Overrides)
    (xs ys : list AIBufferedCurlEasyRequestEvents) :
  forall r : ResponderBase.t,
    deliver_all d r (xs ++ ys)
    = bind (deliver_all d r xs) (fun r' => deliver_all d r' ys).
Proof.
  induction xs as [|e rest IH]; intros r; simpl.
  - destruct (deliver_all d r ys) as [t o]. destruct o; reflexivity.
  - destruct (deliver d r e) as [t1 [r1|]] eqn:E1; simpl; [|reflexivity].
    rewrite IH.
    destruct (deliver_all d r1 rest) as [t2 [r2|]]; simpl.
    + destruct (deliver_all d r2 ys) as [t3 o3]. now rewrite app_assoc.
    + reflexivity.
Qed.

(** What a sequence of events does to a responder. *)
Lemma deliver_all_spec (d : Overrides)
    (es : list AIBufferedCurlEasyRequestEvents) :
  forall r : ResponderBase.t,
    exists t r',
      deliver_all d r es = (t, Some r')
      /\ filter is_cookie (mReceivedHeaders r')
         = filter is_cookie (mReceivedHeaders r ++ headers_in es)
      /\ (existsb is_status_line es = false ->
          mReceivedHeaders r' = mReceivedHeaders r ++ headers_in es)
      /\ map hook_of t
         = repeat hook_completedHeaders
             (List.length (filter is_completed_headers es))
      /\ mURL r' = mURL r /\ mCode r' = mCode r
      /\ mFinished r' = mFinished r
      /\ mReferenceCount r' = mReferenceCount r.
Proof.
  induction es as [|e rest IH]; intros r.
  - exists [], r. simpl. rewrite app_nil_r. repeat split.
  - destruct e as [|key value|status reason info].
    + destruct (IH (received_HTTP_header r))
        as (t & r' & E & C & _ & T & F1 & F2 & F3 & F4).
      exists t, r'. simpl. rewrite E.
      rewrite received_HTTP_header_filters in C, F1, F2, F3, F4.
      cbn [mReceivedHeaders set_mReceivedHeaders mURL mCode mFinished
           mReferenceCount] in C, F1, F2, F3, F4.
      split; [reflexivity|]. split.
      { rewrite C. rewrite !filter_app, filter_idempotent. reflexivity. }
      split; [discriminate|]. repeat split; assumption.
    + destruct (IH (received_header key value r))
        as (t & r' & E & C & N & T & F1 & F2 & F3 & F4).
      exists t, r'. simpl. rewrite E.
      unfold received_header, addHeader in C, N.
      cbn [mReceivedHeaders set_mReceivedHeaders] in C, N.
      rewrite <- app_assoc in C, N. simpl in C, N.
      split; [reflexivity|]. split; [exact C|].
      split; [exact N|]. repeat split; assumption.
    + destruct (IH r) as (t & r' & E & C & N & T & F1 & F2 & F3 & F4).
      exists (Invoke (call_completedHeaders status reason (mReceivedHeaders r))
                :: t), r'.
      split.
      { simpl. unfold_cascade.
        destruct (overrides_completedHeaders d); simpl; now rewrite E. }
      split; [exact C|]. split; [exact N|].
      split; [simpl; now rewrite T|]. repeat split; assumption.
Qed.

(** X3: any sequence of events returns, invokes [completedHeaders] once per
    [completed_headers] event and no other hook, and leaves url, transport
    code, finished flag and reference count alone.  No set-cookie header is
    lost or invented: those in the collector are those it held plus those
    received, in order.  With no status line the collector has grown by the
    headers received; otherwise it holds the set-cookie headers held or
    received before the last status line, then every header received after
    it. *)
Theorem events_keep_cookies_and_last_reply :
  forall (d : Overrides) (r : ResponderBase.t)
         (es : list AIBufferedCurlEasyRequestEvents),
    exists t r',
      deliver_all d r es = (t, Some r')
      /\ filter is_cookie (mReceivedHeaders r')
         = filter is_cookie (mReceivedHeaders r ++ headers_in es)
      /\ (existsb is_status_line es = false ->
          mReceivedHeaders r' = mReceivedHeaders r ++ headers_in es)
      /\ (forall before after,
            es = before ++ on_received_HTTP_header :: after ->
            existsb is_status_line after = false ->
            mReceivedHeaders r'
            = filter is_cookie (mReceivedHeaders r ++ headers_in before)
              ++ headers_in after)
      /\ map hook_of t
         = repeat hook_completedHeaders
             (List.length (filter is_completed_headers es))
      /\ mURL r' = mURL r /\ mCode r' = mCode r
      /\ mFinished r' = mFinished r
      /\ mReferenceCount r' = mReferenceCount r.
Proof.
  intros d r es.
  destruct (deliver_all_spec d es r)
    as (t & r' & E & C & N & T & F1 & F2 & F3 & F4).
  exists t, r'. split; [exact E|]. split; [exact C|]. split; [exact N|].
  split; [|repeat split; assumption].
  intros before after Hes Hafter. subst es.
  rewrite deliver_all_app in E.
  destruct (deliver_all_spec d before r) as (t1 & r1 & E1 & C1 & _).
  rewrite E1 in E. simpl in E.
  destruct (deliver_all_spec d after (received_HTTP_header r1))
    as (t2 & r2 & E2 & _ & N2 & _).
  rewrite E2 in E. inversion E; subst.
  rewrite (N2 Hafter), received_HTTP_header_filters.
  cbn [mReceivedHeaders set_mReceivedHeaders]. now rewrite C1.
Qed.

(** X4: a ResponderHeadersOnly is told twice: when the events of a transfer
    end with [completed_headers(status, reason, info)] and the terminal
    call follows with the same status and reason, [completedHeaders] is
    invoked by the event and again by [finished], both times with the same
    status, reason and collector; the responder then is finished with the
    transport code recorded. *)
Theorem ResponderHeadersOnly_told_twice :
  forall (d : Overrides) (r : ResponderBase.t)
         (es : list AIBufferedCurlEasyRequestEvents) (code : CURLcode)
         (status : U32) (reason : string) (info : AITransferInfo)
         (channels : LLChannelDescriptors) (buffer : buffer_ptr_t),
    exists t r',
      deliver_all d r es = (t, Some r')
      /\ bind (deliver_all d r
                 (es ++ [on_completed_headers status reason info]))
           (ResponderHeadersOnly.finished d code status reason channels
              buffer)
         = (t ++ [Invoke (call_completedHeaders status reason
                            (mReceivedHeaders r'));
                  Invoke (call_completedHeaders status reason
                            (mReceivedHeaders r'))],
            Some (set_mFinished true (set_mCode code r'))).
Proof.
  intros d r es code status reason info channels buffer.
  destruct (deliver_all_spec d es r) as (t & r' & E & _).
  exists t, r'. split; [exact E|].
  rewrite deliver_all_app, E. simpl. unfold_cascade.
  destruct (overrides_completedHeaders d); simpl;
    (apply f_equal2; [|reflexivity]);
    exact (eq_sym (app_assoc t [_] [_])).
Qed.

End EventSequences.

(** ** Sequences of calls *)

Section CallSequences.
Context `{HttpStatusCodes} `{LLSDSerialize}.

(** One call on a LegacyPolledResponder, when it returns. *)
Lemma LegacyPolled_call_fields (d : Overrides) (p : LegacyPolledResponder.t)
    (op : Op) (t : list Event) (o' : Responder) :
  call d (LegacyPolled p) op = (t, Some o') ->
  exists p',
    o' = LegacyPolled p'
    /\ (ResponderBase.mCode (LegacyPolledResponder.base p'),
        LegacyPolledResponder.mStatus p', LegacyPolledResponder.mReason p')
       = match op with
         | op_finished code http_status reason _ _ =>
             (code, http_status, reason)
         | _ => (ResponderBase.mCode (LegacyPolledResponder.base p),
                 LegacyPolledResponder.mStatus p,
                 LegacyPolledResponder.mReason p)
         end.
Proof.
  destruct op; unfold call, finished; unfold_cascade.
  - intros E; inversion E; subst. eexists; split; reflexivity.
  - intros E; inversion E; subst. eexists; split; [reflexivity|].
    cbn [with_base as_base LegacyPolledResponder.set_base
         LegacyPolledResponder.base LegacyPolledResponder.mStatus
         LegacyPolledResponder.mReason].
    rewrite received_HTTP_header_filters. reflexivity.
  - intros E; inversion E; subst. eexists; split; reflexivity.
  - destruct (overrides_completedHeaders d);
      intros E; inversion E; subst; eexists; split; reflexivity.
  - by_overrides d; intros E; inversion E; subst;
      eexists; split; reflexivity.
  - intros E; inversion E; subst. eexists; split; reflexivity.
  - intros E; inversion E; subst. eexists; split; reflexivity.
Qed.

Lemma LegacyPolled_run_fields (d : Overrides) (ops : list Op) :
  forall (p : LegacyPolledResponder.t) (t : list Event) (o' : Responder),
    run d (LegacyPolled p) ops = (t, Some o') ->
    exists p',
      o' = LegacyPolled p'
      /\ (ResponderBase.mCode (LegacyPolledResponder.base p'),
          LegacyPolledResponder.mStatus p', LegacyPolledResponder.mReason p')
         = match last_terminal_call ops with
           | Some last => last
           | None => (ResponderBase.mCode (LegacyPolledResponder.base p),
                      LegacyPolledResponder.mStatus p,
                      LegacyPolledResponder.mReason p)
           end.
Proof.
  induction ops as [|op rest IH]; intros p t o'; simpl.
  - intros E; inversion E; subst. eexists; split; reflexivity.
  - intros E. apply bind_returns in E.
    destruct E as (t1 & o1 & t2 & E1 & E2 & _).
    apply LegacyPolled_call_fields in E1. destruct E1 as (p1 & -> & F1).
    apply IH in E2. destruct E2 as (p' & -> & F2).
    exists p'. split; [reflexivity|]. rewrite F2.
    destruct (last_terminal_call rest); [reflexivity|].
    rewrite F1. destruct op; reflexivity.
Qed.

(** X5: the last terminal call wins: after any sequence of calls on a new
    LegacyPolledResponder that returns, [result_code()], [http_status()]
    and [reason()] are the code, status and reason of the last [finished]
    call of the sequence -- whatever events or earlier terminal calls came
    before or after it -- and the constructor's values when there was
    none. *)
Theorem LegacyPolledResponder_reports_last_terminal_call :
  forall (d : Overrides) (code0 : CURLcode) (ops : list Op)
         (t : list Event) (o' : Responder),
    run d (new class_LegacyPolled code0) ops = (t, Some o') ->
    exists p',
      o' = LegacyPolled p'
      /\ (ResponderBase.result_code (LegacyPolledResponder.base p'),
          LegacyPolledResponder.http_status p',
          LegacyPolledResponder.reason p')
         = match last_terminal_call ops with
           | Some last => last
           | None => (code0, HTTP_INTERNAL_ERROR, "")
           end.
Proof.
  intros d code0 ops t o' E.
  exact (LegacyPolled_run_fields d ops _ _ _ E).
Qed.

Lemma call_hooks (d : Overrides) (o : Responder) (op : Op) :
  forallb (fun e => may_invoke (class_of o) (hook_of e)) (trace (call d o op))
  = true.
Proof.
  destruct op; try reflexivity.
  - unfold call. unfold_cascade.
    destruct (overrides_completedHeaders d); destruct o; reflexivity.
  - destruct o; unfold call, finished; unfold_cascade;
      try destruct (ResponderBase.status_indicates_success http_status);
      by_overrides d; reflexivity.
  - destruct o; try reflexivity. unfold call. unfold_cascade.
    by_overrides d; reflexivity.
  - destruct o; reflexivity.
Qed.

(** X6: each class reaches only its own layer's hooks: over any sequence of
    calls, a ResponderHeadersOnly invokes nothing but [completedHeaders]; a
    ResponderWithCompleted or LegacyPolledResponder nothing but
    [completedHeaders], [completedRaw] and [completed]; a
    ResponderWithResult nothing but [completedHeaders], [result],
    [errorWithContent], [error] and the llinfos log. *)
Theorem class_reaches_only_its_hooks :
  forall (d : Overrides) (ops : list Op) (o : Responder),
    forallb (fun e => may_invoke (class_of o) (hook_of e))
      (trace (run d o ops))
    = true.
Proof.
  intros d ops. induction ops as [|op rest IH]; intros o; simpl run.
  - reflexivity.
  - rewrite trace_bind.
    pose proof (call_hooks d o op) as Hc.
    destruct (call d o op) as [t1 [o1|]] eqn:E1; simpl outcome.
    + destruct (call_flag d o o1 op t1 E1) as [K _].
      rewrite forallb_app. simpl trace in *. rewrite Hc. simpl.
      rewrite <- K. apply IH.
    + exact Hc.
Qed.

(** One call: the reference count stays, and the collector moves only
    under the two header events. *)
Lemma call_frame (d : Overrides) (o o' : Responder) (op : Op)
    (t : list Event) :
  call d o op = (t, Some o') ->
  ResponderBase.mReferenceCount (as_base o')
  = ResponderBase.mReferenceCount (as_base o)
  /\ ResponderBase.mReceivedHeaders (as_base o')
     = match op with
       | op_received_HTTP_header =>
           filter is_cookie (ResponderBase.mReceivedHeaders (as_base o))
       | op_received_header key value =>
           ResponderBase.mReceivedHeaders (as_base o) ++ [(key, value)]
       | _ => ResponderBase.mReceivedHeaders (as_base o)
       end.
Proof.
  destruct op; unfold call, finished; unfold_cascade.
  - intros E; inversion E; subst. destruct o; split; reflexivity.
  - intros E; inversion E; subst.
    assert (B : forall b, as_base (with_base b o) = b)
      by (intros b; destruct o; reflexivity).
    rewrite B, received_HTTP_header_filters. split; reflexivity.
  - intros E; inversion E; subst. destruct o; split; reflexivity.
  - destruct (overrides_completedHeaders d);
      intros E; inversion E; subst; destruct o; split; reflexivity.
  - destruct o;
      try destruct (ResponderBase.status_indicates_success http_status);
      by_overrides d; intros E; inversion E; subst; split; reflexivity.
  - destruct o; try (intros E; inversion E; subst; split; reflexivity).
    by_overrides d; intros E; inversion E; subst; split; reflexivity.
  - destruct o; intros E; inversion E; subst; split; reflexivity.
Qed.

(** X7: only handles move the reference count and only header events move
    the collector: after any sequence of calls that returns, on any class, the
    reference count is what it was, and the collector is what delivering
    just the sequence's [received_HTTP_header] and [received_header]
    events would have left -- [setURL], [completed_headers], terminal calls
    and the pub entry points do not show in it. *)
Theorem calls_frame_count_and_collector :
  forall (d : Overrides) (ops : list Op) (o o' : Responder)
         (t : list Event),
    run d o ops = (t, Some o') ->
    ResponderBase.mReferenceCount (as_base o')
    = ResponderBase.mReferenceCount (as_base o)
    /\ exists b',
         deliver_all d (as_base o) (header_events ops) = ([], Some b')
         /\ ResponderBase.mReceivedHeaders (as_base o')
            = ResponderBase.mReceivedHeaders b'.
Proof.
  intros d ops.
  assert (G : forall (o o' : Responder) (t : list Event) (b : ResponderBase.t),
             ResponderBase.mReceivedHeaders b
             = ResponderBase.mReceivedHeaders (as_base o) ->
             run d o ops = (t, Some o') ->
             ResponderBase.mReferenceCount (as_base o')
             = ResponderBase.mReferenceCount (as_base o)
             /\ exists b',
                  deliver_all d b (header_events ops) = ([], Some b')
                  /\ ResponderBase.mReceivedHeaders (as_base o')
                     = ResponderBase.mReceivedHeaders b').
  { induction ops as [|op rest IH]; intros o o' t b Hb E.
    - simpl in E. inversion E; subst. split; [reflexivity|].
      exists b. split; [reflexivity|]. now rewrite Hb.
    - simpl in E. apply bind_returns in E.
      destruct E as (t1 & o1 & t2 & E1 & E2 & _).
      destruct (call_frame d o o1 op t1 E1) as [C1 H1].
      destruct op;
        try (destruct (IH o1 o' t2 b (eq_trans Hb (eq_sym H1)) E2)
               as [C2 (b' & D & Hh)];
             split; [congruence|]; exists b'; split; assumption).
      + assert (Hb1 : ResponderBase.mReceivedHeaders
                        (ResponderBase.received_HTTP_header b)
                      = ResponderBase.mReceivedHeaders (as_base o1)).
        { rewrite received_HTTP_header_filters, H1.
          cbn [ResponderBase.mReceivedHeaders
               ResponderBase.set_mReceivedHeaders]. now rewrite Hb. }
        destruct (IH o1 o' t2 _ Hb1 E2) as [C2 (b' & D & Hh)].
        split; [congruence|]. exists b'. split; [|exact Hh].
        simpl. now rewrite D.
      + assert (Hb1 : ResponderBase.mReceivedHeaders
                        (ResponderBase.received_header key value b)
                      = ResponderBase.mReceivedHeaders (as_base o1)).
        { rewrite H1. unfold ResponderBase.received_header,
            AIHTTPReceivedHeaders.addHeader.
          cbn [ResponderBase.mReceivedHeaders
               ResponderBase.set_mReceivedHeaders]. now rewrite Hb. }
        destruct (IH o1 o' t2 _ Hb1 E2) as [C2 (b' & D & Hh)].
        split; [congruence|]. exists b'. split; [|exact Hh].
        simpl. now rewrite D. }
  intros o o' t E. exact (G o o' t (as_base o) eq_refl E).
Qed.

End CallSequences.

(** ** Worked instances *)

Section Instances.
#[local] Existing Instance sample_codec.
#[local] Existing Instance sample_status_codes.

Local Abbreviation fresh := (ResponderBase.ctor 0%Z).
Local Abbreviation at_url url :=
  (ResponderBase.set_mURL url (ResponderBase.ctor 0%Z)).
Local Abbreviation done code b :=
  (ResponderBase.set_mFinished true (ResponderBase.set_mCode code b)).
Local Abbreviation headers_of r := (ResponderBase.mReceivedHeaders r).

(** C1, against the claim as worded: on a new ResponderWithResult the
    single call [pubResult] is not the terminal call [finished], yet
    [is_finished()] is true after it. *)
Lemma pubResult_finishes_without_terminal_call :
  existsb is_terminal_call [op_pubResult (LLSD_Boolean true)] = false
  /\ is_finished (new class_WithResult 0%Z) = false
  /\ run ResponderIgnore (new class_WithResult 0%Z)
       [op_pubResult (LLSD_Boolean true)]
     = ([Invoke (call_result (LLSD_Boolean true))],
        Some (WithResult
                (ResponderBase.set_mFinished true
                   (ResponderBase.ctor CURLE_OK)))).
Proof. repeat split. Qed.

(** C1 on [sample_run]. *)
Lemma is_finished_iff_completing_call_witness :
  forallb (has_member class_WithCompleted) sample_run = true
  /\ exists t o',
       run overrides_only_completed (new class_WithCompleted 0%Z) sample_run
       = (t, Some o')
       /\ is_finished o' = existsb completing sample_run
       /\ is_finished o' = true.
Proof.
  split; [reflexivity|].
  eexists. eexists. split; [vm_compute; reflexivity|].
  split.
  - exact (proj1 (proj2
      (is_finished_iff_completing_call overrides_only_completed
         class_WithCompleted 0%Z sample_run _ _ eq_refl eq_refl))).
  - reflexivity.
Defined.

(** The class itself places no guard on its fields: on [sample_run] the
    header that arrives after the terminal call is still appended.  That a
    finished responder is left alone is the engine's side of the contract
    ("the curl thread will not access this object anymore"). *)
Example received_header_after_finished_appends :
  option_map (fun o => ResponderBase.mReceivedHeaders (as_base o))
    (outcome (run overrides_only_completed (new class_WithCompleted 0%Z)
                sample_run))
  = Some [("Content-Type", "application/llsd+xml"); ("Set-Cookie", "a=1");
          ("X-Late", "1")].
Proof. reflexivity. Qed.

(** C2 on a responder that saw a redirect's headers. *)
Lemma received_HTTP_header_keeps_only_cookies_witness :
  let r := headers_after
             [("Location", "http://b.example/"); ("Set-Cookie", "a=1");
              ("Content-Length", "0"); ("SET-COOKIE", "b=2")] fresh in
  let r' := ResponderBase.received_HTTP_header r in
  headers_of r' = [("Set-Cookie", "a=1"); ("SET-COOKIE", "b=2")]
  /\ AIHTTPReceivedHeaders.getValues "location" (headers_of r') = (false, [])
  /\ map snd (headers_of r') = ["a=1"; "b=2"].
Proof.
  cbv zeta. split; [reflexivity|]. split.
  - exact (proj1 (proj2 (received_HTTP_header_keeps_only_cookies _))
             "location").
  - exact (proj1 (proj2 (proj2 (received_HTTP_header_keeps_only_cookies _)))
             0%Z _ eq_refl).
Defined.


(** At status 400 with an LLSD body [errorWithContent] receives the decoded
    value; at status 200, [result] does. *)
Example ResponderWithResult_finished_400 :
  trace (ResponderWithResult.finished ResponderIgnore 0%Z 400%N "Bad Request"
           0%Z "<llsd><integer>7</integer></llsd>" fresh)
  = [Invoke (call_errorWithContent 400%N "Bad Request" (LLSD_Integer 7));
     Invoke (call_error 400%N "Bad Request");
     llinfos "" 400%N "Bad Request"].
Proof. reflexivity. Qed.

Example ResponderWithResult_finished_200 :
  trace (ResponderWithResult.finished ResponderIgnore 0%Z 200%N "OK" 0%Z
           "<llsd><integer>7</integer></llsd>" fresh)
  = [Invoke (call_result (LLSD_Integer 7))].
Proof. reflexivity. Qed.

(** C4 on a new LegacyPolledResponder whose class overrides [completed]. *)
Lemma LegacyPolledResponder_finished_caches_status_witness :
  exists p',
    outcome (LegacyPolledResponder.finished overrides_only_completed 0%Z
               404%N "Not Found" 0%Z "gone" (LegacyPolledResponder.ctor 2%Z))
    = Some p'
    /\ LegacyPolledResponder.http_status p' = 404%N
    /\ LegacyPolledResponder.reason p' = "Not Found"
    /\ is_finished (LegacyPolled p') = true.
Proof.
  eexists. split; [reflexivity|].
  destruct (proj1 (LegacyPolledResponder_finished_caches_status
                     overrides_only_completed 0%Z 404%N "Not Found" 0%Z "gone"
                     (LegacyPolledResponder.ctor 2%Z)) _ eq_refl)
    as (A & B & C).
  split; [exact A|]. split; [exact B|]. reflexivity.
Defined.

(** At status 404 the default [completedRaw] still decodes: [completed]
    receives the integer the body holds. *)
Example completed_receives_decoded_body_at_404 :
  trace (ResponderWithCompleted.finished overrides_only_completed CURLE_OK
           404%N "Not Found" 0%Z "<llsd><integer>7</integer></llsd>" fresh)
  = [Invoke (call_completedRaw 404%N "Not Found" 0%Z
               "<llsd><integer>7</integer></llsd>");
     Invoke (call_completed 404%N "Not Found" (LLSD_Integer 7))].
Proof. reflexivity. Qed.

(** C5 on a class that overrides [completedRaw]: the buffer arrives as
    sent. *)
Lemma ResponderWithCompleted_finished_cascade_witness :
  trace (ResponderWithCompleted.finished overrides_only_completedRaw CURLE_OK
           200%N "OK" 7%Z "J2K image bytes" fresh)
  = [Invoke (call_completedRaw 200%N "OK" 7%Z "J2K image bytes")]
  /\ outcome (ResponderWithCompleted.finished overrides_only_completedRaw
                CURLE_OK 200%N "OK" 7%Z "J2K image bytes" fresh)
     = Some (done CURLE_OK fresh).
Proof.
  exact (ResponderWithCompleted_finished_cascade overrides_only_completedRaw
           CURLE_OK 200%N "OK" 7%Z "J2K image bytes" fresh).
Defined.


(** C9, against the claim as worded: a ResponderWithCompleted whose class
    overrides no hook does not survive its terminal call. *)
Lemma default_completed_aborts :
  outcome (finished no_overrides CURLE_OK 503%N "Service Unavailable" 0%Z
             "" (new class_WithCompleted 0%Z))
  = None
  /\ trace (finished no_overrides CURLE_OK 503%N "Service Unavailable" 0%Z
              "" (new class_WithCompleted 0%Z))
     = [Invoke (call_completedRaw 503%N "Service Unavailable" 0%Z "");
        Invoke (call_completed 503%N "Service Unavailable" LLSD_Undefined)].
Proof. split; reflexivity. Qed.

(** C9 on ResponderIgnore at status 503. *)
Lemma default_hooks_log_or_abort_witness :
  outcome (ResponderWithResult.finished ResponderIgnore CURLE_OK 503%N
             "Service Unavailable" 0%Z "" (at_url "http://sim/cap"))
  = Some (done CURLE_OK (at_url "http://sim/cap"))
  /\ trace (ResponderWithResult.finished ResponderIgnore CURLE_OK 503%N
              "Service Unavailable" 0%Z "" (at_url "http://sim/cap"))
     = [Invoke (call_errorWithContent 503%N "Service Unavailable"
                  LLSD_Undefined);
        Invoke (call_error 503%N "Service Unavailable");
        llinfos "http://sim/cap" 503%N "Service Unavailable"].
Proof.
  pose proof (default_hooks_log_or_abort ResponderIgnore CURLE_OK 503%N
                "Service Unavailable" 0%Z "" LLSD_Undefined
                (at_url "http://sim/cap")) as (A & _ & _ & D & _).
  split; [exact A|exact D].
Defined.

(** C6 on three handles: two released, then the third. *)
Lemma responder_deleted_with_last_handle_witness :
  (exists p h,
      handle_run (fresh_allocation 0%Z) sample_two_gone = Some (p, h)
      /\ ResponderBase.mReferenceCount (object p) = 1%Z
      /\ deleted p = 0)
  /\ (exists p h,
         handle_run (fresh_allocation 0%Z) sample_all_gone = Some (p, h)
         /\ ResponderBase.mReferenceCount (object p) = 0%Z
         /\ deleted p = 1).
Proof.
  split.
  - eexists. eexists. split; [vm_compute; reflexivity|].
    split; [reflexivity|].
    refine (proj1 (proj2 (proj2
      (responder_deleted_with_last_handle 0%Z sample_two_gone _ _ _
         eq_refl))) _).
    + vm_compute. reflexivity.
    + vm_compute. lia.
  - eexists. eexists. split; [vm_compute; reflexivity|].
    split; [reflexivity|].
    refine (proj1 (proj2 (proj2 (proj2
      (responder_deleted_with_last_handle 0%Z sample_all_gone _ _ _
         eq_refl)))) _ _).
    + vm_compute. reflexivity.
    + vm_compute. lia.
    + reflexivity.
Defined.

(** C7 on a short header sequence, asked in another case. *)
Lemma getValues_returns_values_added_witness :
  let calls := [("Set-Cookie", "a=1"); ("Content-Type", "text/html");
                ("set-cookie", "b=2"); ("SET-COOKIE", "a=1")] in
  let h := headers_of (headers_after calls fresh) in
  values (AIHTTPReceivedHeaders.getValues "Set-COOKIE" h)
  = ["a=1"; "b=2"; "a=1"]
  /\ AIHTTPReceivedHeaders.getValues "SET-cookie" h
     = AIHTTPReceivedHeaders.getValues "Set-COOKIE" h.
Proof.
  cbv zeta. split.
  - exact (proj1 (getValues_returns_values_added 0%Z _ "Set-COOKIE")).
  - exact (proj1 (proj2 (proj2
             (getValues_returns_values_added 0%Z _ "Set-COOKIE")))
             "SET-cookie" eq_refl).
Defined.

(** C10 on a LegacyPolledResponder that received headers only. *)
Lemma LegacyPolledResponder_defaults_before_finished_witness :
  existsb is_terminal_call sample_events = false
  /\ exists t p',
       run no_overrides (new class_LegacyPolled 0%Z) sample_events
       = (t, Some (LegacyPolled p'))
       /\ LegacyPolledResponder.http_status p' = 499%N
       /\ LegacyPolledResponder.reason p' = ""
       /\ is_finished (LegacyPolled p') = false.
Proof.
  split; [reflexivity|].
  exact (LegacyPolledResponder_defaults_before_finished no_overrides 0%Z
           sample_events eq_refl).
Defined.

(** A LegacyPolledResponder polled after a failed transfer (28 is
    CURLE_OPERATION_TIMEDOUT): the code is recorded and the headers it had
    collected are still there. *)
Lemma terminal_call_records_transport_code_witness :
  let p := LegacyPolledResponder.set_base
             (headers_after [("Set-Cookie", "a=1")] fresh)
             (LegacyPolledResponder.ctor 0%Z) in
  exists p',
    outcome (LegacyPolledResponder.finished overrides_only_completedRaw 28%Z
               499%N "Timeout was reached" 0%Z "" p)
    = Some p'
    /\ ResponderBase.result_code (LegacyPolledResponder.base p') = 28%Z
    /\ headers_of (LegacyPolledResponder.base p') = [("Set-Cookie", "a=1")]
    /\ ResponderBase.mReferenceCount (LegacyPolledResponder.base p') = 0%Z.
Proof.
  cbv zeta. eexists. split; [reflexivity|].
  destruct (proj1 (proj2 (proj2
              (terminal_call_records_transport_code
                 overrides_only_completedRaw 28%Z 499%N "Timeout was reached"
                 0%Z "" LLSD_Undefined fresh
                 (LegacyPolledResponder.set_base
                    (headers_after [("Set-Cookie", "a=1")] fresh)
                    (LegacyPolledResponder.ctor 0%Z)))))
              _ eq_refl) as (C & _ & _ & Hh & Hc).
  split; [exact C|]. split; [exact Hh|exact Hc].
Defined.

(** The collector after [sample_redirect]: the redirect's cookie, then the
    page's headers; one [completedHeaders] invocation. *)
Lemma events_keep_cookies_and_last_reply_witness :
  exists t r',
    deliver_all overrides_only_completed fresh sample_redirect = (t, Some r')
    /\ headers_of r' = [("Set-Cookie", "a=1"); ("Content-Type", "text/html")]
    /\ map hook_of t = [hook_completedHeaders].
Proof.
  destruct (events_keep_cookies_and_last_reply overrides_only_completed fresh
              sample_redirect)
    as (t & r' & E & _ & _ & L & T & _).
  exists t, r'. split; [exact E|]. split; [|exact T].
  exact (L [on_received_HTTP_header;
            on_received_header "Location" "http://b.example/";
            on_received_header "Set-Cookie" "a=1"]
           [on_received_header "Content-Type" "text/html";
            on_completed_headers 200%N "OK" transfer_info]
           eq_refl eq_refl).
Defined.

(** [sample_retry] on a LegacyPolledResponder: the second terminal call is
    the one reported. *)
Lemma LegacyPolledResponder_reports_last_terminal_call_witness :
  exists t p',
    run overrides_only_completedRaw (new class_LegacyPolled 2%Z) sample_retry
    = (t, Some (LegacyPolled p'))
    /\ ResponderBase.result_code (LegacyPolledResponder.base p') = CURLE_OK
    /\ LegacyPolledResponder.http_status p' = 200%N
    /\ LegacyPolledResponder.reason p' = "OK".
Proof.
  destruct (run overrides_only_completedRaw (new class_LegacyPolled 2%Z)
              sample_retry) as [t [o'|]] eqn:E;
    [|vm_compute in E; discriminate].
  destruct (@LegacyPolledResponder_reports_last_terminal_call
              sample_status_codes sample_codec overrides_only_completedRaw
              2%Z sample_retry t o' E) as (p' & -> & F).
  exists t, p'. split; [reflexivity|].
  cbn in F. injection F as Fc Fs Fr.
  split; [exact Fc|]. split; [exact Fs|exact Fr].
Defined.

(** [sample_retry] on a LegacyPolledResponder: the count is untouched and
    the collector holds what the three header events put there. *)
Lemma calls_frame_count_and_collector_witness :
  exists t o',
    run overrides_only_completedRaw (new class_LegacyPolled 2%Z) sample_retry
    = (t, Some o')
    /\ ResponderBase.mReferenceCount (as_base o') = 0%Z
    /\ headers_of (as_base o')
       = [("Content-Type", "application/llsd+xml"); ("Set-Cookie", "a=1");
          ("X-Late", "1")].
Proof.
  destruct (run overrides_only_completedRaw (new class_LegacyPolled 2%Z)
              sample_retry) as [t [o'|]] eqn:E;
    [|vm_compute in E; discriminate].
  destruct (@calls_frame_count_and_collector sample_codec
              overrides_only_completedRaw sample_retry _ o' t E)
    as (C & b' & D & Hh).
  exists t, o'. split; [reflexivity|]. split; [exact C|].
  rewrite Hh. cbn in D. injection D as <-. reflexivity.
Defined.

End Instances.
